(** * The transaction core of blockchain_go

    A shallow embedding of [transaction.go] (package [core]): the transaction
    record, its textual and binary renderings, the size cache, signing,
    verification, the construction functions, the self-transfer policy
    check and the admission check [VerifyTx]; and of [wallets.go]: the
    name of the wallet file, loading and saving the collection of wallets,
    [GetWallet] and the helper [paddedAppend].

    Conventions of the embedding:
    - a Go [[]byte] is a [slice]: [None] is the nil slice, [Some l] a
      non-nil slice with contents [l];
    - Go [int] and [int64] are integers [Z]; the one subtraction the code
      performs is written with its 64-bit wrap-around ([int_sub]);
    - a [*big.Int] is an integer [Z];
    - a method with a pointer receiver that mutates the record returns the
      updated record next to its result;
    - a panic ([log.Panic] or a run-time error) is the [Panics] outcome. *)

From Stdlib Require Import ZArith NArith List String Ascii Lia Bool.
From Stdlib Require Strings.Byte.
From Bignums Require Import BigZ.
From stdpp Require Import gmap strings list pretty.
Import ListNotations.

Local Open Scope string_scope.
Local Open Scope list_scope.
Local Open Scope Z_scope.

(** ** Bytes and slices *)

Abbreviation byte := Byte.byte.

Definition bytes := list byte.

(** A Go byte slice; [None] is [nil]. *)
Definition slice := option bytes.

Definition data (s : slice) : bytes := default [] s.

(** [len(s)]: zero for the nil slice. *)
Definition len (s : slice) : nat := length (data s).

Definition byte_of_N (n : N) : byte := default Byte.x00 (Byte.of_N n).

Definition bytes_of_string (s : string) : bytes := list_byte_of_string s.

(** ** big.Int: [Bytes] and [SetBytes] *)

(** Little-endian base-256 digits of [n], most significant digit non-zero. *)
Fixpoint le_digits (fuel : nat) (n : N) : bytes :=
  match fuel with
  | O => []
  | S fuel' =>
      if (n =? 0)%N then []
      else byte_of_N (n mod 256) :: le_digits fuel' (n / 256)
  end.

(** [x.Bytes()]: the big-endian bytes of the absolute value of [x], without
    leading zero bytes (the empty sequence for zero). *)
Definition big_Bytes (x : Z) : bytes :=
  let n := Z.abs_N x in rev (le_digits (N.to_nat (N.size n)) n).

(** [z.SetBytes(buf)]: [buf] read as a big-endian unsigned integer. *)
Definition be_value (b : bytes) : N :=
  fold_left (fun acc c => (acc * 256 + Byte.to_N c)%N) b 0%N.

Definition big_SetBytes (b : bytes) : Z := Z.of_N (be_value b).

(** ** wallets.go: paddedAppend *)

(** [for i := 0; i < int(size)-len(src); i++ { dst = append(dst, 0) }]
    followed by [append(dst, src...)]. *)
Definition paddedAppend (size : nat) (dst src : bytes) : bytes :=
  dst ++ replicate (size - length src) Byte.x00 ++ src.

(** ** encoding/hex *)

Definition hextable : list ascii := list_ascii_of_string "0123456789abcdef".

Definition hexdigit (n : N) : ascii := nth (N.to_nat n) hextable "0"%char.

Definition hex_byte (b : byte) : string :=
  String (hexdigit (Byte.to_N b / 16)) (String (hexdigit (Byte.to_N b mod 16)) "").

(** [hex.EncodeToString] *)
Fixpoint hex_EncodeToString (b : bytes) : string :=
  match b with
  | [] => ""
  | c :: rest => hex_byte c +:+ hex_EncodeToString rest
  end.

(** [fromHexChar] of encoding/hex: digits and both letter cases. *)
Definition fromHexChar (c : ascii) : option N :=
  let n := N_of_ascii c in
  if ((48 <=? n) && (n <=? 57))%N then Some (n - 48)%N
  else if ((97 <=? n) && (n <=? 102))%N then Some (n - 87)%N
  else if ((65 <=? n) && (n <=? 70))%N then Some (n - 55)%N
  else None.

(** [hex.DecodeString]: [None] stands for the returned error (odd length or
    a character that is no hexadecimal digit). *)
Fixpoint hex_DecodeString (s : string) : option bytes :=
  match s with
  | "" => Some []
  | String _ "" => None
  | String a (String b rest) =>
      match fromHexChar a, fromHexChar b, hex_DecodeString rest with
      | Some hi, Some lo, Some tl => Some (byte_of_N (16 * hi + lo) :: tl)
      | _, _, _ => None
      end
  end.

(** The [%x] verb on a byte slice and on a string, and [%d] on an int. *)
Definition fmt_x (s : slice) : string := hex_EncodeToString (data s).
Definition fmt_x_string (s : string) : string := hex_EncodeToString (bytes_of_string s).
Definition fmt_d (n : Z) : string := pretty n.

(** [strings.Join] *)
Fixpoint strings_Join (l : list string) (sep : string) : string :=
  match l with
  | [] => ""
  | [s] => s
  | s :: rest => s +:+ sep +:+ strings_Join rest sep
  end.

Definition newline : string := String (ascii_of_nat 10) "".

(** ** The data model *)

(** Modelled from the spec: the declaration of [TXInput] is not among the
    sources; the fields and their order are those of the composite literal
    [TXInput{vin.Txid, vin.Vout, nil, nil}] of [TrimmedCopy] and of the
    spec's TransactionInput. *)
Module TXInput.
Record t := mk { Txid : slice; Vout : Z; Signature : slice; PubKey : slice }.
Definition set_Signature (sig : slice) (vin : t) : t :=
  mk (Txid vin) (Vout vin) sig (PubKey vin).
Definition set_PubKey (key : slice) (vin : t) : t :=
  mk (Txid vin) (Vout vin) (Signature vin) key.
End TXInput.
Abbreviation TXInput := TXInput.t.

(** Modelled from the spec: the declaration of [TXOutput] is not among the
    sources; fields as in the literal [TXOutput{vout.Value, vout.PubKeyHash}]
    and the spec's TransactionOutput. *)
Record TXOutput := mkTXOutput { Value : Z; PubKeyHash : slice }.

(** [common.StorageSize], a byte count. In go-ethereum it is a [float64],
    which holds every integer up to [2^53] exactly; the counts of this
    development are lengths of byte sequences held in memory, all in that
    range, and are written as the integers they are. *)
Definition StorageSize := N.

(** [size] is the [atomic.Value] cell: [None] while nothing was stored
    ([Load] returns nil), [Some c] after [Store(c)]. *)
Record Transaction := mkTransaction {
  ID : slice;
  Vin : list TXInput;
  Vout : list TXOutput;
  Timestamp : Z;
  size : option StorageSize
}.

Definition set_ID (id : slice) (tx : Transaction) : Transaction :=
  mkTransaction id (Vin tx) (Vout tx) (Timestamp tx) (size tx).
Definition set_Vin (vin : list TXInput) (tx : Transaction) : Transaction :=
  mkTransaction (ID tx) vin (Vout tx) (Timestamp tx) (size tx).
Definition set_size (c : option StorageSize) (tx : Transaction) : Transaction :=
  mkTransaction (ID tx) (Vin tx) (Vout tx) (Timestamp tx) c.

(** The zero value of [Transaction], which indexing a Go map returns for an
    absent key. *)
Definition zeroTransaction : Transaction := mkTransaction None [] [] 0 None.

(** [prevTXs[key]] *)
Definition map_index (prevTXs : gmap string Transaction) (key : string) : Transaction :=
  default zeroTransaction (prevTXs !! key).

Definition subsidy : Z := 50.

(** ** Outcomes *)

(** An error value of a library call: of [hex.DecodeString], or of a
    function of [Lib] with its text. *)
Inductive error :=
| ErrHex
| ErrLib (text : string).

Inductive panic :=
| LogPanic (msg : string)   (* log.Panic(msg): logs, then panics *)
| LogPanicErr (err : error) (* log.Panic(err) *)
| IndexOutOfRange.          (* run-time error: index out of range *)

Inductive outcome (A : Type) :=
| Returns (a : A)
| Panics (p : panic).
Arguments Returns {A} a.
Arguments Panics {A} p.

#[global] Instance outcome_ret : MRet outcome := @Returns.
#[global] Instance outcome_bind : MBind outcome := fun A B f m =>
  match m with Returns a => f a | Panics p => Panics p end.
#[global] Instance outcome_fmap : FMap outcome := fun A B f m =>
  match m with Returns a => Returns (f a) | Panics p => Panics p end.

(** [l[i]] for a Go [int] index. *)
Definition index {A} (l : list A) (i : Z) : outcome A :=
  if i <? 0 then Panics IndexOutOfRange
  else match l !! Z.to_nat i with
       | Some a => Returns a
       | None => Panics IndexOutOfRange
       end.

(** Two's complement [int] subtraction (64-bit). *)
Definition wrap64 (z : Z) : Z := (z + 2 ^ 63) mod 2 ^ 64 - 2 ^ 63.
Definition int_sub (a b : Z) : Z := wrap64 (a - b).

(** ** The Go libraries the code calls *)

Record CurveParams := mkCurve {
  curve_P : Z; curve_N : Z; curve_A : Z; curve_B : Z;
  curve_Gx : Z; curve_Gy : Z; curve_BitSize : Z
}.

(** [crypto.S256()]: the curve secp256k1. *)
Definition crypto_S256 : CurveParams := {|
  curve_P := 0xFFFFFFFFFFFFFFFFFFFFFFFFFFFFFFFFFFFFFFFFFFFFFFFFFFFFFFFEFFFFFC2F;
  curve_N := 0xFFFFFFFFFFFFFFFFFFFFFFFFFFFFFFFEBAAEDCE6AF48A03BBFD25E8CD0364141;
  curve_A := 0;
  curve_B := 7;
  curve_Gx := 0x79BE667EF9DCBBAC55A06295CE870B07029BFCDB2DCE28D959F2815B16F81798;
  curve_Gy := 0x483ADA7726A3C4655DA4FBFC0E1108A8FD17B448A68554199C47D08FFB10D4B8;
  curve_BitSize := 256
|}.

Module ecdsa.
Record PublicKey := mkPublicKey { Curve : CurveParams; X : Z; Y : Z }.
(** Go embeds the public key in the private key. *)
Record PrivateKey := mkPrivateKey { Public : PublicKey; D : Z }.
End ecdsa.

(** The library functions, as the interface the code sees. The reflective
    encoders (gob, rlp) read the exported fields [ID], [Vin], [Vout] and
    [Timestamp] of a record and never the unexported [size]; they are
    given these four. [Entropy] is the state of [rand.Reader]. An error
    result carries its text. *)
Class Lib := {
  (** [gob.NewEncoder(&buf).Encode(tx)]: the bytes left in the buffer *)
  gob_Encode : slice -> list TXInput -> list TXOutput -> Z -> bytes;
  (** [sha256.Sum256], of type [[32]byte] *)
  sha256_Sum256 : bytes -> { h : bytes | length h = 32%nat };
  (** [rlp.Encode(w, &tx)]: the chunks passed to [w.Write], in order *)
  rlp_Encode : slice -> list TXInput -> list TXOutput -> Z -> list bytes;
  Entropy : Type;
  (** [ecdsa.Sign(rand.Reader, &priv, hash)] *)
  ecdsa_Sign : Entropy -> ecdsa.PrivateKey -> bytes -> (string + Z * Z) * Entropy;
  (** [ecdsa.Verify(&pub, hash, r, s)] *)
  ecdsa_Verify : ecdsa.PublicKey -> bytes -> Z -> Z -> bool;
  (** [rand.Read(buf)] for a buffer of the given length *)
  rand_Read : Entropy -> nat -> (string + bytes) * Entropy;
  (** the order in which [range] visits a map: each entry once *)
  map_range : gmap string (list Z) -> list (string * list Z);
  map_range_perm : forall m, map_range m ≡ₚ map_to_list m
}.

(** ** go-ethereum/rlp: the types that have an encoder

    [rlp.Encode] derives the encoder of a value from its Go type
    ([makeWriter] of [encode.go]): unsigned integers, byte slices, slices,
    pointers and interfaces have one, a struct has one when each of its
    exported fields has, and a signed integer has none ([rlp: type int64
    is not RLP-serializable]). None of the types of [transaction.go]
    implements [rlp.Encoder]: the method [EncodeRLP] of the source is
    commented out. *)
Inductive GoType :=
| TUint8
| TUint64
| TInt
| TInt64
| TInterface
| TSlice (elem : GoType)
| TPtr (elem : GoType)
| TStruct (fields : GoFields)
with GoFields :=
| NoFields
| Field (name : string) (type : GoType) (rest : GoFields).

(** A field is exported when its name starts with an upper-case letter. *)
Definition exported (name : string) : bool :=
  match name with
  | String c _ => ((65 <=? N_of_ascii c) && (N_of_ascii c <=? 90))%N
  | EmptyString => false
  end.

(** Whether [makeWriter] returns an encoder for the type (true) or the
    error (false); [structFields] visits the exported fields of a
    struct. *)
Fixpoint rlp_makeWriter (t : GoType) : bool :=
  match t with
  | TUint8 | TUint64 => true
  | TInt | TInt64 => false
  | TInterface => true
  | TSlice elem => rlp_makeWriter elem
  | TPtr elem => rlp_makeWriter elem
  | TStruct fields => rlp_structFields fields
  end
with rlp_structFields (fields : GoFields) : bool :=
  match fields with
  | NoFields => true
  | Field name type rest =>
      (if exported name then rlp_makeWriter type else true) && rlp_structFields rest
  end.

(** Modelled from the spec: the declaration of [TXInput] is not among the
    sources; its fields as in [TXInput.t], with the Go type [int] for the
    output index, whose sentinel is -1. *)
Definition TXInput_type : GoType :=
  TStruct (Field "Txid" (TSlice TUint8) (Field "Vout" TInt
            (Field "Signature" (TSlice TUint8) (Field "PubKey" (TSlice TUint8) NoFields)))).

(** Modelled from the spec: the declaration of [TXOutput] is not among
    the sources; its fields as in [TXOutput], with the Go type [int] for
    the value. *)
Definition TXOutput_type : GoType :=
  TStruct (Field "Value" TInt (Field "PubKeyHash" (TSlice TUint8) NoFields)).

(** [atomic.Value]: a struct with one unexported field of interface
    type. *)
Definition atomic_Value_type : GoType := TStruct (Field "v" TInterface NoFields).

(** The fields of [Transaction] as the source declares them, for element
    types [vin] and [vout] of the two slices. *)
Definition Transaction_fields (vin vout : GoType) : GoFields :=
  Field "ID" (TSlice TUint8) (Field "Vin" (TSlice vin) (Field "Vout" (TSlice vout)
    (Field "Timestamp" TInt64 (Field "size" atomic_Value_type NoFields)))).

Definition Transaction_type : GoType :=
  TStruct (Transaction_fields TXInput_type TXOutput_type).

(** What [rlp.Encode(w, val)] hands to [w] for a value of type [t]: the
    encoding is built in a buffer and written once it is complete; when
    the type has no encoder the error is returned before anything is
    written. [encoding] is what an encoder of the type would write. *)
Definition rlp_Encode_writes (t : GoType) (encoding : list bytes) : list bytes :=
  if rlp_makeWriter t then encoding else [].

(** The library is go-ethereum's: the chunks that [Size] sees written for
    [&tx], a pointer to the receiver [tx *Transaction], are those of
    [rlp.Encode] on that type. *)
Definition rlp_of_go_ethereum (L : Lib) : Prop :=
  forall id vin vout ts,
    exists encoding,
      rlp_Encode id vin vout ts
      = rlp_Encode_writes (TPtr (TPtr Transaction_type)) encoding.

(** ** Code of the repository that is not among the sources *)

Module Wallet.
(** Modelled from the spec: the wallet (KeyMaterial) is declared outside
    the sources; [NewUTXOTransaction] reads its fields [PrivateKey] and
    [PublicKey] (the raw public key bytes). *)
Record t := mk { PrivateKey : ecdsa.PrivateKey; PublicKey : slice }.
End Wallet.
Abbreviation Wallet := Wallet.t.

(** The functions of the repository that [transaction.go] calls and whose
    bodies are not among the sources, as parameters:
    - [HashPubKey]: the owner hash of a public key;
    - [Wallet_GetAddress]: [wallet.GetAddress()];
    - [Lock]: the owner hash that [NewTXOutput] derives from an address;
    - [FindSpendableOutputs]: the selector of the UTXO set, with the two
      constant arguments [false, nil] of the call left out;
    - [FindPrevTXs]: the prior transactions that
      [Blockchain.SignTransaction] looks up for the inputs of a record. *)
Class Collab := {
  HashPubKey : slice -> slice;
  Wallet_GetAddress : Wallet -> bytes;
  Lock : string -> slice;
  UTXOSet : Type;
  FindSpendableOutputs : UTXOSet -> slice -> Z -> Z * gmap string (list Z);
  FindPrevTXs : UTXOSet -> Transaction -> outcome (gmap string Transaction)
}.

(** ** transaction.go *)

Section Core.
Context {L : Lib}.

(** [IsCoinbase] *)
Definition IsCoinbase (tx : Transaction) : bool :=
  (length (Vin tx) =? 1)%nat &&
  match Vin tx with
  | vin0 :: _ => (len (TXInput.Txid vin0) =? 0)%nat && (TXInput.Vout vin0 =? -1)
  | [] => false
  end.

(** [Serialize]; the encoder does not fail on this record type, so the
    [log.Panic(err)] branch is left out. *)
Definition Serialize (tx : Transaction) : bytes :=
  gob_Encode (ID tx) (Vin tx) (Vout tx) (Timestamp tx).

(** [Hash]: the record is copied, the copy's [ID] set to [[]byte{}]. *)
Definition Hash (tx : Transaction) : slice :=
  let txCopy := set_ID (Some []) tx in
  Some (proj1_sig (sha256_Sum256 (Serialize txCopy))).

(** [writeCounter.Write]: the new counter and the returned length. *)
Definition writeCounter_Write (c : N) (b : bytes) : N * nat :=
  ((c + N.of_nat (length b))%N, length b).

(** [SetSize]: the returned size and the record with the cell stored.
    The argument is a [uint64] byte count, for which the conversion to
    [common.StorageSize] is exact up to [2^53]; the callers of the source
    pass the length of a serialization. *)
Definition SetSize (c : N) (tx : Transaction) : StorageSize * Transaction :=
  (c, set_size (Some c) tx).

(** [Size]; the error result of [rlp.Encode] is dropped by the code. *)
Definition Size (tx : Transaction) : StorageSize * Transaction :=
  match size tx with
  | Some sz =>
      if negb (sz =? 0)%N then (sz, tx)
      else
        let c := fold_left (fun c b => fst (writeCounter_Write c b))
                   (rlp_Encode (ID tx) (Vin tx) (Vout tx) (Timestamp tx)) 0%N in
        (c, set_size (Some c) tx)
  | None =>
      let c := fold_left (fun c b => fst (writeCounter_Write c b))
                 (rlp_Encode (ID tx) (Vin tx) (Vout tx) (Timestamp tx)) 0%N in
      (c, set_size (Some c) tx)
  end.

(** [String] *)
Definition input_lines (i : nat) (input : TXInput) : list string :=
  [ "     Input " +:+ fmt_d (Z.of_nat i) +:+ ":";
    "       TXID:      " +:+ fmt_x (TXInput.Txid input);
    "       Out:       " +:+ fmt_d (TXInput.Vout input);
    "       Signature: " +:+ fmt_x (TXInput.Signature input);
    "       PubKey:    " +:+ fmt_x (TXInput.PubKey input) ].

Definition output_lines (i : nat) (output : TXOutput) : list string :=
  [ "     Output " +:+ fmt_d (Z.of_nat i) +:+ ":";
    "       Value:  " +:+ fmt_d (Value output);
    "       Script: " +:+ fmt_x (PubKeyHash output) ].

Definition Transaction_String (tx : Transaction) : string :=
  strings_Join
    ([ "--- Transaction " +:+ fmt_x (ID tx) +:+ ":" ]
       ++ concat (imap input_lines (Vin tx))
       ++ concat (imap output_lines (Vout tx))
       ++ [ "       Timestamp: " +:+ fmt_d (Timestamp tx) ])
    newline.

(** [fmt.Sprintf] with the format [%x] and a newline, on a record: the
    verb applies to the text of its [String] method. *)
Definition Sprintf_x_nl (tx : Transaction) : string :=
  fmt_x_string (Transaction_String tx) +:+ newline.

(** [TrimmedCopy]: the copy, and the receiver with its size cell stored
    (the method calls [tx.SetSize(uint64(len(tx.Serialize())))]). The copy
    takes the cell as it was before that call. *)
Definition TrimmedCopy (tx : Transaction) : Transaction * Transaction :=
  let inputs :=
    map (fun vin => TXInput.mk (TXInput.Txid vin) (TXInput.Vout vin) None None) (Vin tx) in
  let outputs :=
    map (fun vout => mkTXOutput (Value vout) (PubKeyHash vout)) (Vout tx) in
  let txCopy := mkTransaction (ID tx) inputs outputs (Timestamp tx) (size tx) in
  let tx := snd (SetSize (N.of_nat (length (Serialize tx))) tx) in
  (txCopy, tx).

(** [append(r.Bytes(), s.Bytes()...)]: the signature that [Sign] stores. *)
Definition concatComponents (r s : Z) : bytes := big_Bytes r ++ big_Bytes s.

(** The two integers that [Verify] reads from a slice [b]: [SetBytes] of
    [b[:(len(b) / 2)]] and of [b[(len(b) / 2):]]. *)
Definition splitHalves (b : slice) : Z * Z :=
  let half := (len b / 2)%nat in
  (big_SetBytes (take half (data b)), big_SetBytes (drop half (data b))).

(** [tx.Vin[inID].field = v]; the index is always in range where the code
    assigns. *)
Definition alter_Vin (f : TXInput -> TXInput) (inID : nat) (tx : Transaction) : Transaction :=
  set_Vin (alter f inID (Vin tx)) tx.

Definition missingPrevious : string := "ERROR: Previous transaction is not correct".

(** The first loop of [Sign] and of [Verify]. *)
Fixpoint checkPrevTXs (vins : list TXInput) (prevTXs : gmap string Transaction) : outcome unit :=
  match vins with
  | [] => Returns tt
  | vin :: rest =>
      match ID (map_index prevTXs (hex_EncodeToString (data (TXInput.Txid vin)))) with
      | None => Panics (LogPanic missingPrevious)
      | Some _ => checkPrevTXs rest prevTXs
      end
  end.

(** The signing loop of [Sign], from input [inID] on; [vins] are the
    inputs of the trimmed copy still to visit. *)
Fixpoint sign_loop (privKey : ecdsa.PrivateKey) (prevTXs : gmap string Transaction)
    (inID : nat) (vins : list TXInput) (tx txCopy : Transaction) (g : Entropy)
    : outcome (Transaction * Entropy) :=
  match vins with
  | [] => Returns (tx, g)
  | vin :: rest =>
      let prevTx := map_index prevTXs (hex_EncodeToString (data (TXInput.Txid vin))) in
      let txCopy := alter_Vin (TXInput.set_Signature None) inID txCopy in
      out ← index (Vout prevTx) (TXInput.Vout vin);
      let txCopy := alter_Vin (TXInput.set_PubKey (PubKeyHash out)) inID txCopy in
      let dataToSign := Sprintf_x_nl txCopy in
      match ecdsa_Sign g privKey (bytes_of_string dataToSign) with
      | (inl err, _) => Panics (LogPanicErr (ErrLib err))
      | (inr (r, s), g') =>
          let signature := Some (concatComponents r s) in
          let tx := alter_Vin (TXInput.set_Signature signature) inID tx in
          let txCopy := alter_Vin (TXInput.set_PubKey None) inID txCopy in
          sign_loop privKey prevTXs (S inID) rest tx txCopy g'
      end
  end.

(** [Sign]: the record after the call and the state of the entropy
    source. *)
Definition Sign (tx : Transaction) (privKey : ecdsa.PrivateKey)
    (prevTXs : gmap string Transaction) (g : Entropy) : outcome (Transaction * Entropy) :=
  if IsCoinbase tx then Returns (tx, g)
  else
    _ ← checkPrevTXs (Vin tx) prevTXs;
    let '(txCopy, tx) := TrimmedCopy tx in
    sign_loop privKey prevTXs 0 (Vin txCopy) tx txCopy g.

(** The checking loop of [Verify], from input [inID] on; [vins] are the
    inputs of the record itself still to visit. *)
Fixpoint verify_loop (prevTXs : gmap string Transaction)
    (inID : nat) (vins : list TXInput) (txCopy : Transaction) : outcome bool :=
  match vins with
  | [] => Returns true
  | vin :: rest =>
      let prevTx := map_index prevTXs (hex_EncodeToString (data (TXInput.Txid vin))) in
      let txCopy := alter_Vin (TXInput.set_Signature None) inID txCopy in
      out ← index (Vout prevTx) (TXInput.Vout vin);
      let txCopy := alter_Vin (TXInput.set_PubKey (PubKeyHash out)) inID txCopy in
      let '(r, s) := splitHalves (TXInput.Signature vin) in
      let '(x, y) := splitHalves (TXInput.PubKey vin) in
      let dataToVerify := Sprintf_x_nl txCopy in
      let rawPubKey := ecdsa.mkPublicKey crypto_S256 x y in
      if negb (ecdsa_Verify rawPubKey (bytes_of_string dataToVerify) r s) then Returns false
      else
        let txCopy := alter_Vin (TXInput.set_PubKey None) inID txCopy in
        verify_loop prevTXs (S inID) rest txCopy
  end.

(** [Verify]: the result and the record after the call. *)
Definition Verify (tx : Transaction) (prevTXs : gmap string Transaction)
    : outcome (bool * Transaction) :=
  if IsCoinbase tx then Returns (true, tx)
  else
    _ ← checkPrevTXs (Vin tx) prevTXs;
    let '(txCopy, tx') := TrimmedCopy tx in
    ok ← verify_loop prevTXs 0 (Vin tx) txCopy;
    Returns (ok, tx').

(** [VeryfyFromToAddress] *)
Fixpoint fromEqualsTo (vins : list TXInput) (to : slice) : bool :=
  match vins with
  | [] => false
  | txin :: rest =>
      if String.eqb (hex_EncodeToString (data (TXInput.PubKey txin)))
                    (hex_EncodeToString (data to))
      then true
      else fromEqualsTo rest to
  end.

Definition VeryfyFromToAddress (tx : Transaction) : bool :=
  if IsCoinbase tx then true
  else match Vout tx with
       | vout0 :: _ => if fromEqualsTo (Vin tx) (PubKeyHash vout0) then false else true
       | [] => true
       end.

End Core.

Section Construction.
Context {L : Lib} {C : Collab}.

(** Modelled from the spec: [NewTXOutput] is not among the sources; it
    builds the output of the given value owned by the hash that the
    address encodes ([Lock]). *)
Definition NewTXOutput (value : Z) (address : string) : TXOutput :=
  mkTXOutput value (Lock address).

(** Modelled from the spec: [Blockchain.SignTransaction] is not among the
    sources; it resolves the prior transactions of the inputs and invokes
    [Sign] with them. *)
Definition SignTransaction (U : UTXOSet) (tx : Transaction) (privKey : ecdsa.PrivateKey)
    (g : Entropy) : outcome (Transaction * Entropy) :=
  prevTXs ← FindPrevTXs U tx;
  Sign tx privKey prevTXs g.

(** [NewCoinbaseTX]; [now] is [time.Now().Unix()]. *)
Definition NewCoinbaseTX (to data : string) (now : Z) (g : Entropy)
    : outcome (Transaction * Entropy) :=
  '(data, g) ←
    (if String.eqb data ""
     then match rand_Read g (Z.to_nat subsidy) with
          | (inl err, _) => Panics (LogPanicErr (ErrLib err))
          | (inr randData, g') => Returns (fmt_x (Some randData), g')
          end
     else Returns (data, g));
  let txin := TXInput.mk (Some []) (-1) None (Some (bytes_of_string data)) in
  let txout := NewTXOutput subsidy to in
  let tx := mkTransaction None [txin] [txout] now (Some 0%N) in
  let tx := set_ID (Hash tx) tx in
  let tx := snd (SetSize (N.of_nat (length (Serialize tx))) tx) in
  Returns (tx, g).

(** The input-building loops of [NewUTXOTransaction] over the entries of
    [validOutputs] in the order [range] visits them. *)
Fixpoint build_inputs (wallet : Wallet) (entries : list (string * list Z))
    (inputs : list TXInput) : outcome (list TXInput) :=
  match entries with
  | [] => Returns inputs
  | (txid, outs) :: rest =>
      match hex_DecodeString txid with
      | None => Panics (LogPanicErr ErrHex)
      | Some txID =>
          let inputs :=
            fold_left
              (fun inputs out =>
                 inputs ++ [TXInput.mk (Some txID) out None (Wallet.PublicKey wallet)])
              outs inputs in
          build_inputs wallet rest inputs
      end
  end.

(** [NewUTXOTransaction]; [now] is [time.Now().Unix()]. *)
Definition NewUTXOTransaction (wallet : Wallet) (to : string) (amount : Z) (U : UTXOSet)
    (now : Z) (g : Entropy) : outcome (Transaction * Entropy) :=
  let pubKeyHash := HashPubKey (Wallet.PublicKey wallet) in
  let '(acc, validOutputs) := FindSpendableOutputs U pubKeyHash amount in
  if acc <? amount then Panics (LogPanic "ERROR: Not enough funds")
  else
    inputs ← build_inputs wallet (map_range validOutputs) [];
    let from := string_of_list_byte (Wallet_GetAddress wallet) in
    let outputs := [NewTXOutput amount to] in
    let outputs :=
      if acc >? amount then outputs ++ [NewTXOutput (int_sub acc amount) from]
      else outputs in
    let tx := mkTransaction None inputs outputs now (Some 0%N) in
    let tx := set_ID (Hash tx) tx in
    let tx := snd (SetSize (N.of_nat (length (Serialize tx))) tx) in
    SignTransaction U tx (Wallet.PrivateKey wallet) g.

End Construction.

(** ** wallets.go *)


(** [strings.Replace(s, old, new, -1)] for an [old] and a [new] of one
    character each. *)
Fixpoint strings_Replace_char (old new : ascii) (s : string) : string :=
  match s with
  | "" => ""
  | String c rest =>
      String (if Ascii.eqb c old then new else c) (strings_Replace_char old new rest)
  end.

(** [genWalletFileName] *)
Definition genWalletFileName (nodeID : string) : string :=
  strings_Replace_char ":" "_" nodeID.

(** [genWalletDbName]: [fmt.Sprintf(walletFile, nodeID)] with the format
    [wallet_%s.dat]. *)
Definition genWalletDbName (nodeID : string) : string :=
  let nodeID := genWalletFileName nodeID in
  "wallet_" +:+ nodeID +:+ ".dat".



(** [Wallets]: the map from addresses to wallets. An address that the map
    does not hold is looked up as the nil pointer. *)
Definition Wallets := gmap string Wallet.

(** The calls of [wallets.go] into the operating system and the
    libraries. [FS] is the state of the file system; an error carries its
    text. *)
Class Files := {
  FS : Type;
  (** [os.Stat(name)]: the error it returns, if any *)
  os_Stat : FS -> string -> option string;
  (** [os.IsNotExist(err)] *)
  os_IsNotExist : string -> bool;
  (** [ioutil.ReadFile(name)] *)
  ioutil_ReadFile : FS -> string -> string + bytes;
  (** [ioutil.WriteFile(name, content, 0644)]: the error, if any, and the
      file system after the call *)
  ioutil_WriteFile : FS -> string -> bytes -> option string * FS;
  (** [gob.NewEncoder(&content).Encode(ws)]: the bytes of the buffer *)
  gob_EncodeWallets : Wallets -> string + bytes;
  (** [gob.NewDecoder(...).Decode(&wallets)] *)
  gob_DecodeWallets : bytes -> string + Wallets;
  (** [crypto.ToECDSA(d)] *)
  crypto_ToECDSA : bytes -> string + ecdsa.PrivateKey
}.

(** A function that fails by a nil pointer dereference only. *)
Inductive deref (A : Type) :=
| Pointee (a : A)
| NilPointerDereference.
Arguments Pointee {A} a.
Arguments NilPointerDereference {A}.

Section WalletsFile.
Context {F : Files}.

(** [LoadFromFile]: the collection after the call and the error
    returned. *)
Definition LoadFromFile (ws : Wallets) (nodeID : string) (fs : FS)
    : outcome (Wallets * option error) :=
  let walletFile := genWalletDbName nodeID in
  match os_Stat fs walletFile with
  | Some err =>
      if os_IsNotExist err then Returns (ws, Some (ErrLib err))
      else
        match ioutil_ReadFile fs walletFile with
        | inl err => Panics (LogPanicErr (ErrLib err))
        | inr fileContent =>
            match gob_DecodeWallets fileContent with
            | inl err => Panics (LogPanicErr (ErrLib err))
            | inr wallets => Returns (wallets, None)
            end
        end
  | None =>
      match ioutil_ReadFile fs walletFile with
      | inl err => Panics (LogPanicErr (ErrLib err))
      | inr fileContent =>
          match gob_DecodeWallets fileContent with
          | inl err => Panics (LogPanicErr (ErrLib err))
          | inr wallets => Returns (wallets, None)
          end
      end
  end.

(** [NewWallets] *)
Definition NewWallets (nodeID : string) (fs : FS) : outcome (Wallets * option error) :=
  let wallets : Wallets := ∅ in
  let nodeID := genWalletFileName nodeID in
  LoadFromFile wallets nodeID fs.

(** [SaveToFile]: the file system after the call. *)
Definition SaveToFile (ws : Wallets) (nodeID : string) (fs : FS) : outcome FS :=
  let walletFile := genWalletDbName nodeID in
  match gob_EncodeWallets ws with
  | inl err => Panics (LogPanicErr (ErrLib err))
  | inr content =>
      match ioutil_WriteFile fs walletFile content with
      | (Some err, _) => Panics (LogPanicErr (ErrLib err))
      | (None, fs') => Returns fs'
      end
  end.

(** [GetWallet]: [*ws.Wallets[address]] dereferences the pointer that the
    map holds, and [*prv] the key that [crypto.ToECDSA] returns, nil next
    to an error. *)
Definition GetWallet (ws : Wallets) (address : string) : deref Wallet :=
  match ws !! address with
  | None => NilPointerDereference
  | Some wallet =>
      match crypto_ToECDSA (big_Bytes (ecdsa.D (Wallet.PrivateKey wallet))) with
      | inl _ => NilPointerDereference
      | inr prv => Pointee (Wallet.mk prv (Wallet.PublicKey wallet))
      end
  end.

End WalletsFile.

(** ** transaction.go: admission *)

(** The two checks of [VerifyTx] whose bodies are not among the sources:
    [bc.VerifyTransaction] and [UTXOSet.IsUTXOAmountValid]. Both are
    handed a pointer to the record and return it as they leave it. *)
Class Admission {C : Collab} := {
  VerifyTransaction : UTXOSet -> Transaction -> outcome (bool * Transaction);
  IsUTXOAmountValid : UTXOSet -> Transaction -> outcome (bool * Transaction)
}.

Section TxCheck.
Context {C : Collab} {A : Admission}.

(** [VerifyTx]; the test [&tx == nil] of a local variable is never true,
    and the printed lines are left out. *)
Definition VerifyTx (tx : Transaction) (bc : UTXOSet) : outcome bool :=
  '(ok, tx) ← VerifyTransaction bc tx;
  let valid1 := ok in
  '(valid2, tx) ←
    (if negb (IsCoinbase tx)
     then '(ok, tx) ← IsUTXOAmountValid bc tx; Returns (ok, tx)
     else Returns (true, tx));
  let valid3 := VeryfyFromToAddress tx in
  Returns (if valid1 && valid2 && valid3 then true else false).

End TxCheck.

(** ** A reference instance of the libraries

    Used to run the code on concrete records. ECDSA is the textbook
    algorithm over the curve of the key (Jacobian coordinates, computed on
    [bigZ]); the nonce of a signature is drawn from the entropy, a list of
    integers. The encoders, the digest and the random bytes are simple
    stand-ins; the theorems are stated for every instance of the
    libraries, and this one serves to evaluate them on records. *)

Module Ref.

Local Open Scope bigZ_scope.

(** Square-and-multiply; with the exponent [m - 2] this is the inverse
    modulo a prime [m]. *)
Fixpoint powmod (b : bigZ) (e : positive) (m : bigZ) : bigZ :=
  match e with
  | xH => b mod m
  | xO e' => let r := powmod b e' m in (r * r) mod m
  | xI e' => let r := powmod b e' m in ((r * r) mod m * b) mod m
  end.

Definition invmod (a : bigZ) (m : Z) : bigZ :=
  powmod a (Z.to_pos (m - 2)) (BigZ.of_Z m).

(** Jacobian points [(X, Y, Z)]; [Z = 0] is the point at infinity. *)
Definition jpoint := (bigZ * bigZ * bigZ)%type.

Definition jinf : jpoint := (0, 1, 0).

Definition jdouble (p a : bigZ) (q : jpoint) : jpoint :=
  let '(x, y, z) := q in
  if (z =? 0) || (y =? 0) then jinf
  else
    let yy := (y * y) mod p in
    let s := (4 * x * yy) mod p in
    let zz := (z * z) mod p in
    let m := (3 * x * x + a * ((zz * zz) mod p)) mod p in
    let x3 := (m * m - 2 * s) mod p in
    let y3 := (m * (s - x3) - 8 * ((yy * yy) mod p)) mod p in
    let z3 := (2 * y * z) mod p in
    (x3, y3, z3).

Definition jadd (p a : bigZ) (q1 q2 : jpoint) : jpoint :=
  let '(x1, y1, z1) := q1 in
  let '(x2, y2, z2) := q2 in
  if z1 =? 0 then q2
  else if z2 =? 0 then q1
  else
    let z1z1 := (z1 * z1) mod p in
    let z2z2 := (z2 * z2) mod p in
    let u1 := (x1 * z2z2) mod p in
    let u2 := (x2 * z1z1) mod p in
    let s1 := (y1 * ((z2 * z2z2) mod p)) mod p in
    let s2 := (y2 * ((z1 * z1z1) mod p)) mod p in
    if u1 =? u2 then (if s1 =? s2 then jdouble p a q1 else jinf)
    else
      let h := (u2 - u1) mod p in
      let r := (s2 - s1) mod p in
      let hh := (h * h) mod p in
      let hhh := (h * hh) mod p in
      let v := (u1 * hh) mod p in
      let x3 := (r * r - hhh - 2 * v) mod p in
      let y3 := (r * (v - x3) - s1 * hhh) mod p in
      let z3 := (((h * z1) mod p) * z2) mod p in
      (x3, y3, z3).

Fixpoint jmul_pos (p a : bigZ) (k : positive) (q : jpoint) : jpoint :=
  match k with
  | xH => q
  | xO k' => jdouble p a (jmul_pos p a k' q)
  | xI k' => jadd p a (jdouble p a (jmul_pos p a k' q)) q
  end.

Definition jmul (p a : bigZ) (k : Z) (q : jpoint) : jpoint :=
  match k with
  | Zpos k' => jmul_pos p a k' q
  | _ => jinf
  end.

(** The affine coordinates of a point; [None] at infinity. *)
Definition affine (c : CurveParams) (q : jpoint) : option (Z * Z) :=
  let '(x, y, z) := q in
  let p := BigZ.of_Z (curve_P c) in
  if z =? 0 then None
  else
    let zi := invmod z (curve_P c) in
    let zi2 := (zi * zi) mod p in
    Some (BigZ.to_Z ((x * zi2) mod p), BigZ.to_Z ((y * ((zi2 * zi) mod p)) mod p)).

(** [k * (x, y)] and [u1 * G + u2 * (x, y)] on the curve [c]. *)
Definition scalar_mult (c : CurveParams) (k x y : Z) : option (Z * Z) :=
  let p := BigZ.of_Z (curve_P c) in
  let a := BigZ.of_Z (curve_A c) in
  affine c (jmul p a k (BigZ.of_Z x, BigZ.of_Z y, 1)).

Definition double_scalar_mult (c : CurveParams) (u1 u2 x y : Z) : option (Z * Z) :=
  let p := BigZ.of_Z (curve_P c) in
  let a := BigZ.of_Z (curve_A c) in
  affine c
    (jadd p a
       (jmul p a u1 (BigZ.of_Z (curve_Gx c), BigZ.of_Z (curve_Gy c), 1))
       (jmul p a u2 (BigZ.of_Z x, BigZ.of_Z y, 1))).

Local Close Scope bigZ_scope.

Definition inv_mod_order (c : CurveParams) (a : Z) : Z :=
  BigZ.to_Z (invmod (BigZ.of_Z a) (curve_N c)).

(** [hashToInt] of crypto/ecdsa: the leftmost bits of the hash, as many as
    the order of the curve has. *)
Definition hashToInt (c : CurveParams) (hash : bytes) : Z :=
  let orderBits := Z.log2 (curve_N c) + 1 in
  let orderBytes := Z.to_nat ((orderBits + 7) / 8) in
  let hash := take orderBytes hash in
  let ret := big_SetBytes hash in
  let excess := Z.of_nat (length hash) * 8 - orderBits in
  if 0 <? excess then Z.shiftr ret excess else ret.

(** The entropy is the list of the nonces still to be drawn. A nonce that
    gives [r = 0] or [s = 0] is dropped and the next one drawn, as the
    loop of [ecdsa.Sign] does; an exhausted list is a failing reader. *)
Fixpoint sign (g : list Z) (priv : ecdsa.PrivateKey) (hash : bytes)
    : (string + Z * Z) * list Z :=
  match g with
  | [] => (inl "EOF", [])
  | k0 :: g' =>
      let c := ecdsa.Curve (ecdsa.Public priv) in
      let n := curve_N c in
      let k := k0 mod (n - 1) + 1 in
      match scalar_mult c k (curve_Gx c) (curve_Gy c) with
      | None => sign g' priv hash
      | Some (x1, _) =>
          let r := x1 mod n in
          let e := hashToInt c hash in
          let s := (inv_mod_order c k * ((e + r * ecdsa.D priv) mod n)) mod n in
          if (r =? 0) || (s =? 0) then sign g' priv hash
          else (inr (r, s), g')
      end
  end.

Definition verify (pub : ecdsa.PublicKey) (hash : bytes) (r s : Z) : bool :=
  let c := ecdsa.Curve pub in
  let n := curve_N c in
  if (r <=? 0) || (s <=? 0) then false
  else if (n <=? r) || (n <=? s) then false
  else
    let e := hashToInt c hash in
    let w := inv_mod_order c s in
    let u1 := (e * w) mod n in
    let u2 := (r * w) mod n in
    match double_scalar_mult c u1 u2 (ecdsa.X pub) (ecdsa.Y pub) with
    | None => false
    | Some (x, _) => x mod n =? r
    end.

(** The public key of the private scalar [d] on [crypto.S256()]. *)
Definition keyOf (d : Z) : ecdsa.PrivateKey :=
  match scalar_mult crypto_S256 d (curve_Gx crypto_S256) (curve_Gy crypto_S256) with
  | Some (x, y) => ecdsa.mkPrivateKey (ecdsa.mkPublicKey crypto_S256 x y) d
  | None => ecdsa.mkPrivateKey (ecdsa.mkPublicKey crypto_S256 0 0) d
  end.

End Ref.

(** Stand-ins for the encoders, the digest and the random bytes. *)
Definition ref_gob (id : slice) (vin : list TXInput) (vout : list TXOutput) (ts : Z) : bytes :=
  bytes_of_string (Transaction_String (mkTransaction id vin vout ts None)).

Definition ref_digest (b : bytes) : bytes := take 32 (rev b ++ replicate 32 Byte.x00).

Lemma ref_digest_length (b : bytes) : length (ref_digest b) = 32%nat.
Proof.
  unfold ref_digest. rewrite length_take, length_app, length_replicate. lia.
Qed.

(** The stand-in for the chunks that an encoder of the record would
    write, handed to the writer as go-ethereum does: not at all for a type
    without an encoder. *)
Definition ref_rlp (id : slice) (vin : list TXInput) (vout : list TXOutput) (ts : Z)
    : list bytes :=
  rlp_Encode_writes (TPtr (TPtr Transaction_type)) [data id; ref_gob None vin vout ts].

Definition ref_rand_Read (g : list Z) (n : nat) : (string + bytes) * list Z :=
  match g with
  | [] => (inl "EOF", [])
  | k :: g' => (inr (replicate n (byte_of_N (Z.to_N (k mod 256)))), g')
  end.

Definition refLib : Lib := {|
  gob_Encode := ref_gob;
  sha256_Sum256 := fun b => exist _ (ref_digest b) (ref_digest_length b);
  rlp_Encode := ref_rlp;
  Entropy := list Z;
  ecdsa_Sign := Ref.sign;
  ecdsa_Verify := Ref.verify;
  rand_Read := ref_rand_Read;
  map_range := map_to_list;
  map_range_perm := fun m => reflexivity (map_to_list m)
|}.

(** A stand-in for the rest of the repository: owner hashes are the first
    20 bytes of the digest of the key, addresses their hexadecimal text,
    and the UTXO set a list of unspent outputs [(txid, index, output)] with
    the transactions of the chain by the hexadecimal text of their id. *)
Record RefUTXOSet := mkRefUTXOSet {
  unspent : list (string * Z * TXOutput);
  chain : gmap string Transaction
}.

Definition ref_HashPubKey (pubKey : slice) : slice :=
  Some (take 20 (ref_digest (data pubKey))).

(** Modelled from the spec: the selector accumulates outputs owned by the
    key hash until the target amount is reached. *)
Fixpoint ref_select (pubKeyHash : slice) (amount : Z) (l : list (string * Z * TXOutput))
    (accumulated : Z) (m : gmap string (list Z)) : Z * gmap string (list Z) :=
  match l with
  | [] => (accumulated, m)
  | (txID, outIdx, out) :: rest =>
      if String.eqb (fmt_x (PubKeyHash out)) (fmt_x pubKeyHash) && (accumulated <? amount)
      then ref_select pubKeyHash amount rest (accumulated + Value out)
             (<[txID := default [] (m !! txID) ++ [outIdx]]> m)
      else ref_select pubKeyHash amount rest accumulated m
  end.

Fixpoint ref_FindPrevTXs (chain : gmap string Transaction) (vins : list TXInput)
    (prevTXs : gmap string Transaction) : outcome (gmap string Transaction) :=
  match vins with
  | [] => Returns prevTXs
  | vin :: rest =>
      match chain !! fmt_x (TXInput.Txid vin) with
      | None => Panics (LogPanicErr (ErrLib "Transaction is not found"))
      | Some prevTX => ref_FindPrevTXs chain rest (<[fmt_x (ID prevTX) := prevTX]> prevTXs)
      end
  end.

Definition refCollab : Collab := {|
  HashPubKey := ref_HashPubKey;
  Wallet_GetAddress := fun w => bytes_of_string (fmt_x (ref_HashPubKey (Wallet.PublicKey w)));
  Lock := fun address => hex_DecodeString address;
  UTXOSet := RefUTXOSet;
  FindSpendableOutputs := fun U pubKeyHash amount =>
    ref_select pubKeyHash amount (unspent U) 0 ∅;
  FindPrevTXs := fun U tx => ref_FindPrevTXs (chain U) (Vin tx) ∅
|}.

(** ** Concrete records *)

Module Ex.

(** The key pair of the private scalar 12345 on secp256k1 and its raw
    public key: the two coordinates, 32 bytes each. *)
Definition priv : ecdsa.PrivateKey := Eval vm_compute in Ref.keyOf 12345.

Definition pubKey : slice :=
  Eval vm_compute in
    Some (big_Bytes (ecdsa.X (ecdsa.Public priv)) ++ big_Bytes (ecdsa.Y (ecdsa.Public priv))).

Definition wallet : Wallet := Wallet.mk priv pubKey.

Definition ownerHash : slice := Eval vm_compute in ref_HashPubKey pubKey.

(** A prior transaction with one output of value 100 owned by the key. *)
Definition prevID : bytes := Eval vm_compute in replicate 32 Byte.x11.

Definition prevTx : Transaction :=
  mkTransaction (Some prevID) [TXInput.mk (Some []) (-1) None (Some [Byte.x2a])]
    [mkTXOutput 100 ownerHash] 1500000000 None.

Definition prevTXs : gmap string Transaction :=
  {[ hex_EncodeToString prevID := prevTx ]}.

(** A record spending that output: 60 to another owner, 40 back. *)
Definition recipientHash : slice := Eval vm_compute in Some (replicate 20 Byte.x22).

Definition spend : Transaction :=
  mkTransaction (Some [Byte.x01; Byte.x02; Byte.x03])
    [TXInput.mk (Some prevID) 0 None pubKey]
    [mkTXOutput 60 recipientHash; mkTXOutput 40 ownerHash] 1600000000 (Some 0%N).

(** The same record as a node receives it: nothing stored in the size
    cell yet. *)
Definition received : Transaction := set_size None spend.

(** The state of the chain: the one unspent output, of value 100. *)
Definition utxo : RefUTXOSet :=
  mkRefUTXOSet [(hex_EncodeToString prevID, 0, mkTXOutput 100 ownerHash)] prevTXs.

Definition recipient : string := Eval vm_compute in fmt_x recipientHash.

(** A record that sends the whole output back to the key that spends it:
    the sole output is owned by the hash of the key of the input. *)
Definition selfTransfer : Transaction :=
  mkTransaction (Some [Byte.x04; Byte.x05; Byte.x06])
    [TXInput.mk (Some prevID) 0 None pubKey]
    [mkTXOutput 100 ownerHash] 1600000000 (Some 0%N).

(** The same record with an output index that the prior transaction does
    not have. *)
Definition badIndex : Transaction :=
  set_Vin [TXInput.mk (Some prevID) 7 None pubKey] spend.

End Ex.

(** Further records: signed, and altered after signing. *)
Module Ex2.

(** [Ex.spend] signed, and the signed record with its outputs replaced:
    everything paid to a third owner. *)
Definition signedSpend : Transaction :=
  Eval vm_compute in
    match Sign (L := refLib) Ex.spend Ex.priv Ex.prevTXs [1] with
    | Returns (tx, _) => tx
    | Panics _ => Ex.spend
    end.

Definition tampered : Transaction :=
  mkTransaction (ID signedSpend) (Vin signedSpend)
    [mkTXOutput 100 (Some (replicate 20 Byte.x33))] (Timestamp signedSpend)
    (size signedSpend).

(** A record without inputs that pays 1000. *)
Definition noInputs : Transaction :=
  mkTransaction None [] [mkTXOutput 1000 Ex.recipientHash] 1600000000 None.

End Ex2.

(** A stand-in for the file system and the codecs of [wallets.go]: the
    files are a map from names to contents, a wallet is written as its
    address, scalar, coordinates and key bytes with their lengths, and
    [crypto.ToECDSA] is the function of go-ethereum on the reference
    curve arithmetic. *)
Definition ref_encode_wallet (entry : string * Wallet) : bytes :=
  let '(address, wallet) := entry in
  let priv := Wallet.PrivateKey wallet in
  [byte_of_N (N.of_nat (String.length address))] ++ bytes_of_string address
    ++ paddedAppend 32 [] (big_Bytes (ecdsa.D priv))
    ++ paddedAppend 32 [] (big_Bytes (ecdsa.X (ecdsa.Public priv)))
    ++ paddedAppend 32 [] (big_Bytes (ecdsa.Y (ecdsa.Public priv)))
    ++ [byte_of_N (N.of_nat (len (Wallet.PublicKey wallet)))]
    ++ data (Wallet.PublicKey wallet).

Definition ref_gob_EncodeWallets (ws : Wallets) : string + bytes :=
  inr (concat (map ref_encode_wallet (map_to_list ws))).

Fixpoint ref_decode_wallets (fuel : nat) (b : bytes) (acc : Wallets) : string + Wallets :=
  match b with
  | [] => inr acc
  | n :: b1 =>
      match fuel with
      | O => inl "unexpected EOF"
      | S fuel' =>
          let la := N.to_nat (Byte.to_N n) in
          let address := string_of_list_byte (take la b1) in
          let b2 := drop la b1 in
          let d := big_SetBytes (take 32 b2) in
          let x := big_SetBytes (take 32 (drop 32 b2)) in
          let y := big_SetBytes (take 32 (drop 64 b2)) in
          match drop 96 b2 with
          | [] => inl "unexpected EOF"
          | m :: b3 =>
              let lk := N.to_nat (Byte.to_N m) in
              if (length b3 <? lk)%nat then inl "unexpected EOF"
              else
                let priv := ecdsa.mkPrivateKey (ecdsa.mkPublicKey crypto_S256 x y) d in
                ref_decode_wallets fuel' (drop lk b3)
                  (<[address := Wallet.mk priv (Some (take lk b3))]> acc)
          end
      end
  end.

Definition ref_gob_DecodeWallets (b : bytes) : string + Wallets :=
  ref_decode_wallets (length b) b ∅.

Definition ref_ToECDSA (d : bytes) : string + ecdsa.PrivateKey :=
  if negb (8 * length d =? 256)%nat then inl "invalid length, need 256 bits"
  else
    let D := big_SetBytes d in
    if curve_N crypto_S256 <=? D then inl "invalid private key, >=N"
    else if D <=? 0 then inl "invalid private key, zero or negative"
    else inr (Ref.keyOf D).

Definition refFiles : Files := {|
  FS := gmap string bytes;
  os_Stat := fun fs name =>
    match fs !! name with
    | Some _ => None
    | None => Some "no such file or directory"
    end;
  os_IsNotExist := String.eqb "no such file or directory";
  ioutil_ReadFile := fun fs name =>
    match fs !! name with
    | Some content => inr content
    | None => inl "no such file or directory"
    end;
  ioutil_WriteFile := fun fs name content => (None, <[name := content]> fs);
  gob_EncodeWallets := ref_gob_EncodeWallets;
  gob_DecodeWallets := ref_gob_DecodeWallets;
  crypto_ToECDSA := ref_ToECDSA
|}.

Module Ex3.

(** A wallet whose private scalar fills 32 bytes, next to [Ex.wallet],
    whose scalar 12345 has two. *)
Definition fullPriv : ecdsa.PrivateKey := Eval vm_compute in Ref.keyOf (2 ^ 255 + 12345).

Definition fullWallet : Wallet :=
  Eval vm_compute in
    Wallet.mk fullPriv
      (Some (big_Bytes (ecdsa.X (ecdsa.Public fullPriv))
               ++ big_Bytes (ecdsa.Y (ecdsa.Public fullPriv)))).

Definition address : string := "1FullKeyAddress".
Definition shortAddress : string := "1ShortKeyAddress".

Definition wallets : Wallets := {[ address := fullWallet; shortAddress := Ex.wallet ]}.

(** A file system without files. *)
Definition noFiles : gmap string bytes := ∅.

End Ex3.

(** A stand-in for the two checks of the chain: the signatures are
    verified against the prior transactions of the chain, and every
    amount is taken as covered. *)
Definition refAdmission : Admission (C := refCollab) := {|
  VerifyTransaction := fun U tx =>
    if IsCoinbase tx then Returns (true, tx)
    else prevTXs ← FindPrevTXs (Collab := refCollab) U tx; Verify (L := refLib) tx prevTXs;
  IsUTXOAmountValid := fun U tx => Returns (true, tx)
|}.


(** * Notions used in the statements *)

Section Notions.
Context {L : Lib} {C : Collab}.

(** The prior transaction that an input names: [prevTXs[hex(vin.Txid)]]. *)
Definition prevOf (prevTXs : gmap string Transaction) (vin : TXInput) : Transaction :=
  map_index prevTXs (hex_EncodeToString (data (TXInput.Txid vin))).

(** The reference of an input resolves: the map holds a transaction with a
    non-nil id under the key of the input. *)
Definition resolves (prevTXs : gmap string Transaction) (vin : TXInput) : bool :=
  match ID (prevOf prevTXs vin) with Some _ => true | None => false end.

(** The output index of an input is a valid index into the outputs of
    the transaction it names. *)
Definition in_range (prevTXs : gmap string Transaction) (vin : TXInput) : bool :=
  (0 <=? TXInput.Vout vin)
  && (TXInput.Vout vin <? Z.of_nat (length (Vout (prevOf prevTXs vin)))).

(** What a caller gets back: a panic unwinds the caller and hands it no
    value. *)
Definition surfaced_as_value {A} (o : outcome A) : Prop := exists a, o = Returns a.

(** An input without its signature. *)
Definition unsigned (vin : TXInput) : slice * Z * slice :=
  (TXInput.Txid vin, TXInput.Vout vin, TXInput.PubKey vin).

(** The input with signature and key cleared, as [TrimmedCopy] builds it. *)
Definition trimmed (vin : TXInput) : TXInput :=
  TXInput.mk (TXInput.Txid vin) (TXInput.Vout vin) None None.

(** The number of bytes that [rlp.Encode] hands to the write counter for
    a record: what [Size] counts. *)
Definition rlp_length (tx : Transaction) : N :=
  N.of_nat (length (concat (rlp_Encode (ID tx) (Vin tx) (Vout tx) (Timestamp tx)))).

(** The bytes signed and checked for input [inID]: the rendering of the
    trimmed copy with the owner hash of the spent output in the key field
    of that input. *)
Definition signedData (txCopy : Transaction) (inID : nat) (out : TXOutput) : bytes :=
  bytes_of_string
    (Sprintf_x_nl (alter_Vin (TXInput.set_PubKey (PubKeyHash out)) inID txCopy)).

(** The check of one input: [ecdsa.Verify] on the halves of the stored
    key and signature. *)
Definition signature_ok (txCopy : Transaction) (inID : nat) (vin : TXInput)
    (out : TXOutput) : bool :=
  let '(r, s) := splitHalves (TXInput.Signature vin) in
  let '(x, y) := splitHalves (TXInput.PubKey vin) in
  ecdsa_Verify (ecdsa.mkPublicKey crypto_S256 x y) (signedData txCopy inID out) r s.

(** The checks of [Verify] in order, on a copy that stays trimmed. *)
Fixpoint checks (prevTXs : gmap string Transaction) (txCopy : Transaction)
    (inID : nat) (vins : list TXInput) : outcome bool :=
  match vins with
  | [] => Returns true
  | vin :: rest =>
      out ← index (Vout (prevOf prevTXs vin)) (TXInput.Vout vin);
      if signature_ok txCopy inID vin out then checks prevTXs txCopy (S inID) rest
      else Returns false
  end.

(** An input holds a signature that is the concatenation of the bytes of
    two integers. *)
Definition signed (vin : TXInput) : Prop :=
  exists r s, TXInput.Signature vin = Some (concatComponents r s).

(** The reference of an input: the prior transaction and the index of
    the output spent. *)
Definition reference (vin : TXInput) : slice * Z :=
  (TXInput.Txid vin, TXInput.Vout vin).

(** Input [inID] holds the bytes of two components that the signer
    returned for the bytes signed for that input. *)
Definition signed_by (privKey : ecdsa.PrivateKey) (prevTXs : gmap string Transaction)
    (txCopy : Transaction) (inID : nat) (vin : TXInput) : Prop :=
  exists out g0 g1 r s,
    index (Vout (prevOf prevTXs vin)) (TXInput.Vout vin) = Returns out
    /\ ecdsa_Sign g0 privKey (signedData txCopy inID out) = (inr (r, s), g1)
    /\ TXInput.Signature vin = Some (concatComponents r s).

(** The split gives back the components that a stored signature was
    built from. *)
Definition recovers (privKey : ecdsa.PrivateKey) (prevTXs : gmap string Transaction)
    (txCopy : Transaction) (inID : nat) (vin : TXInput) : Prop :=
  forall out g0 g1 r s,
    index (Vout (prevOf prevTXs vin)) (TXInput.Vout vin) = Returns out ->
    ecdsa_Sign g0 privKey (signedData txCopy inID out) = (inr (r, s), g1) ->
    TXInput.Signature vin = Some (concatComponents r s) ->
    splitHalves (TXInput.Signature vin) = (r, s).

(** The inputs built from one entry of the selection. *)
Definition inputs_of (wallet : Wallet) (entry : string * list Z) : list TXInput :=
  map (fun out => TXInput.mk (hex_DecodeString entry.1) out None (Wallet.PublicKey wallet))
    entry.2.

(** The record that [NewUTXOTransaction] hands to the signer. *)
Definition draft (wallet : Wallet) (to : string) (amount acc : Z)
    (entries : list (string * list Z)) (now : Z) : Transaction :=
  let from := string_of_list_byte (Wallet_GetAddress wallet) in
  let outputs :=
    NewTXOutput amount to
      :: (if amount <? acc then [NewTXOutput (int_sub acc amount) from] else []) in
  let tx := mkTransaction None (flat_map (inputs_of wallet) entries) outputs now (Some 0%N) in
  let tx := set_ID (Hash tx) tx in
  set_size (Some (N.of_nat (length (Serialize tx)))) tx.

End Notions.

Section Observed.
Context {L : Lib}.

(** What a caller of [Sign] can observe afterwards of the inputs and of
    the entropy source. *)
Definition signed_inputs (r : Transaction * Entropy) : list TXInput * Entropy :=
  (Vin r.1, r.2).

End Observed.

(** * Properties *)

(** ** The definitions on small inputs *)

Example big_Bytes_small :
  big_Bytes 0 = [] /\ big_Bytes 255 = [Byte.xff] /\ big_Bytes 256 = [Byte.x01; Byte.x00]
  /\ big_Bytes (-256) = [Byte.x01; Byte.x00].
Proof. repeat split; reflexivity. Qed.

Example big_SetBytes_small :
  big_SetBytes [] = 0 /\ big_SetBytes [Byte.x00; Byte.x01; Byte.x00] = 256.
Proof. split; reflexivity. Qed.

Example paddedAppend_small :
  paddedAppend 4 [] [Byte.x01; Byte.x02] = [Byte.x00; Byte.x00; Byte.x01; Byte.x02]
  /\ paddedAppend 1 [Byte.x09] [Byte.x01; Byte.x02] = [Byte.x09; Byte.x01; Byte.x02].
Proof. split; reflexivity. Qed.

Example hex_small :
  hex_EncodeToString [Byte.x0a; Byte.xff] = "0aff"
  /\ hex_DecodeString "0AfF" = Some [Byte.x0a; Byte.xff]
  /\ hex_DecodeString "abc" = None
  /\ hex_DecodeString "zz" = None.
Proof. repeat split; reflexivity. Qed.

Example fmt_d_small : fmt_d (-1) = "-1" /\ fmt_d 0 = "0" /\ fmt_d 1600000000 = "1600000000".
Proof. repeat split; vm_compute; reflexivity. Qed.

Example int_sub_small :
  int_sub 100 60 = 40 /\ int_sub (2 ^ 63 - 1) (-1) = - 2 ^ 63.
Proof. split; reflexivity. Qed.

Example index_small :
  index [10; 20] 1 = Returns 20 /\ index [10; 20] 2 = Panics IndexOutOfRange
  /\ index [10; 20] (-1) = Panics IndexOutOfRange.
Proof. repeat split; reflexivity. Qed.

(** The components 256 and 1 are stored as three bytes, which split into
    1 and 1. *)
Example splitHalves_small :
  concatComponents 256 1 = [Byte.x01; Byte.x00; Byte.x01]
  /\ splitHalves (Some (concatComponents 256 1)) = (1, 1)
  /\ splitHalves (Some (concatComponents 1 256)) = (1, 256)
  /\ splitHalves None = (0, 0).
Proof. repeat split; reflexivity. Qed.

Example IsCoinbase_small :
  IsCoinbase Ex.prevTx = true /\ IsCoinbase Ex.spend = false
  /\ IsCoinbase zeroTransaction = false
  /\ IsCoinbase (set_Vin (Vin Ex.prevTx ++ Vin Ex.prevTx) Ex.prevTx) = false.
Proof. repeat split; reflexivity. Qed.

Example Transaction_String_small :
  Transaction_String (mkTransaction (Some [Byte.xab]) [] [mkTXOutput 7 None] 5 None)
  = strings_Join
      [ "--- Transaction ab:"; "     Output 0:"; "       Value:  7"; "       Script: ";
        "       Timestamp: 5" ] newline.
Proof. vm_compute. reflexivity. Qed.

(** The reference curve arithmetic: the generator has the order of the
    curve, and one less than the order times the generator is its
    opposite. *)
Example secp256k1_order :
  Ref.scalar_mult crypto_S256 (curve_N crypto_S256) (curve_Gx crypto_S256)
    (curve_Gy crypto_S256) = None
  /\ Ref.scalar_mult crypto_S256 (curve_N crypto_S256 - 1) (curve_Gx crypto_S256)
       (curve_Gy crypto_S256)
     = Some (curve_Gx crypto_S256, curve_P crypto_S256 - curve_Gy crypto_S256).
Proof. split; vm_compute; reflexivity. Qed.

Example Size_small :
  Size (L := refLib) (set_size (Some 7%N) Ex.spend) = (7%N, set_size (Some 7%N) Ex.spend)
  /\ fst (Size (L := refLib) Ex.received) = 0%N
  /\ size (snd (Size (L := refLib) Ex.received)) = Some 0%N.
Proof. repeat split; vm_compute; reflexivity. Qed.

(** ** The byte encodings *)

Lemma byte_of_N_to_N (n : N) : (n < 256)%N -> Byte.to_N (byte_of_N n) = n.
Proof.
  intros Hn. unfold byte_of_N.
  destruct (Byte.of_N n) as [b|] eqn:E.
  - simpl. by apply Byte.to_of_N.
  - apply Byte.of_N_None_iff in E. lia.
Qed.

Lemma be_value_app (a b : bytes) :
  be_value (a ++ b) = (be_value a * 256 ^ N.of_nat (length b) + be_value b)%N.
Proof.
  unfold be_value. revert a. induction b as [|c b IH] using rev_ind; intros a.
  - rewrite app_nil_r. simpl. lia.
  - rewrite app_assoc, (fold_left_app _ (a ++ b)), (fold_left_app _ b [c]).
    simpl. rewrite IH, length_app. simpl.
    replace (N.of_nat (length b + 1)) with (N.succ (N.of_nat (length b))) by lia.
    rewrite N.pow_succ_r'. lia.
Qed.

Lemma be_value_rev_le_digits (fuel : nat) (n : N) :
  (n < 2 ^ N.of_nat fuel)%N -> be_value (rev (le_digits fuel n)) = n.
Proof.
  revert n. induction fuel as [|fuel IH]; intros n Hn.
  - simpl in *. assert (n = 0%N) by lia. subst. reflexivity.
  - cbn [le_digits]. destruct (N.eqb_spec n 0) as [->|Hnz]; [reflexivity|].
    cbn [rev]. rewrite be_value_app. cbn [length be_value fold_left].
    rewrite IH.
    + rewrite byte_of_N_to_N by (apply N.mod_lt; lia).
      change (256 ^ N.of_nat 1)%N with 256%N.
      pose proof (N.div_mod n 256). lia.
    + replace (N.of_nat (S fuel)) with (N.succ (N.of_nat fuel)) in Hn by lia.
      rewrite N.pow_succ_r' in Hn.
      apply N.Div0.div_lt_upper_bound.
      assert (0 < 2 ^ N.of_nat fuel)%N by (apply N.neq_0_lt_0, N.pow_nonzero; lia).
      nia.
Qed.

(** [SetBytes] inverts [Bytes] on non-negative integers. *)
Lemma big_SetBytes_Bytes (x : Z) : 0 <= x -> big_SetBytes (big_Bytes x) = x.
Proof.
  intros Hx. unfold big_SetBytes, big_Bytes.
  rewrite be_value_rev_le_digits.
  - lia.
  - rewrite N2Nat.id. apply N.size_gt.
Qed.

(** ** Coinbase records *)

Section Coinbase.
Context {L : Lib}.

Lemma IsCoinbase_true_iff (tx : Transaction) :
  IsCoinbase tx = true <->
  exists vin, Vin tx = [vin] /\ len (TXInput.Txid vin) = 0%nat /\ TXInput.Vout vin = -1.
Proof.
  unfold IsCoinbase. split.
  - intros H. apply andb_true_iff in H as [Hlen H].
    destruct (Vin tx) as [|vin [|vin' rest]]; try discriminate.
    apply andb_true_iff in H as [Hid Hout].
    exists vin. split; [reflexivity|]. split.
    + by apply Nat.eqb_eq.
    + by apply Z.eqb_eq.
  - intros (vin & -> & Hid & Hout). simpl.
    rewrite Hid, Hout. reflexivity.
Qed.

(** C7. [IsCoinbase] holds exactly of the records with one input whose
    previous id is empty and whose output index is -1, and [Verify]
    returns true on every such record whatever the map of prior
    transactions holds, leaving the record as it is. *)
Theorem coinbase_exemption (tx : Transaction) :
  (IsCoinbase tx = true <->
   exists vin, Vin tx = [vin] /\ len (TXInput.Txid vin) = 0%nat /\ TXInput.Vout vin = -1)
  /\ (IsCoinbase tx = true ->
      forall prevTXs : gmap string Transaction, Verify tx prevTXs = Returns (true, tx)).
Proof.
  split; [apply IsCoinbase_true_iff|].
  intros H prevTXs. unfold Verify. rewrite H. reflexivity.
Qed.

End Coinbase.

(** The record that [NewCoinbaseTX] returns is a coinbase record, so
    [Verify] returns true on it against any prior transactions. *)
Lemma NewCoinbaseTX_verifies {L : Lib} {C : Collab} (to data : string) (now : Z)
    (g g' : Entropy) (tx : Transaction) (prevTXs : gmap string Transaction) :
  NewCoinbaseTX to data now g = Returns (tx, g') ->
  IsCoinbase tx = true /\ Verify tx prevTXs = Returns (true, tx).
Proof.
  unfold NewCoinbaseTX. intros H.
  assert (Hcb : IsCoinbase tx = true).
  { destruct (String.eqb data "").
    - destruct (rand_Read g (Z.to_nat subsidy)) as [[err|randData] g1];
        cbn [mbind outcome_bind] in H; [discriminate|].
      inversion H; subst. reflexivity.
    - cbn [mbind outcome_bind] in H. inversion H; subst. reflexivity. }
  split; [exact Hcb|]. unfold Verify. by rewrite Hcb.
Qed.

(** ** Identity hash and size cache *)

Section Identity.
Context {L : Lib}.

Lemma Hash_set_size (c : option StorageSize) (tx : Transaction) :
  Hash (set_size c tx) = Hash tx.
Proof. reflexivity. Qed.

Lemma Hash_set_ID (id : slice) (tx : Transaction) : Hash (set_ID id tx) = Hash tx.
Proof. reflexivity. Qed.

Lemma Size_record (tx : Transaction) :
  snd (Size tx) = tx \/ exists c, snd (Size tx) = set_size (Some c) tx.
Proof.
  unfold Size. destruct (size tx) as [sz|]; [destruct (negb (sz =? 0)%N)|]; simpl; eauto.
Qed.

(** The record that [Verify] leaves behind. *)
Lemma Verify_record (tx tx' : Transaction) (prevTXs : gmap string Transaction) (ok : bool) :
  Verify tx prevTXs = Returns (ok, tx') ->
  tx' = if IsCoinbase tx then tx else snd (TrimmedCopy tx).
Proof.
  unfold Verify. destruct (IsCoinbase tx); [congruence|].
  destruct (checkPrevTXs (Vin tx) prevTXs); simpl; [|discriminate].
  destruct (verify_loop _ _ _ _); simpl; [|discriminate].
  congruence.
Qed.

(** C6. The identity hash is the 32-byte digest of the serialization of
    the record with its id set to the empty slice; it does not change when
    the id is set, when the size cell is stored by [SetSize], read and
    filled by [Size], or overwritten during [Verify]. *)
Theorem identity_hash_stable (tx : Transaction) :
  Hash tx = Some (proj1_sig (sha256_Sum256 (Serialize (set_ID (Some []) tx))))
  /\ len (Hash tx) = 32%nat
  /\ (forall id, Hash (set_ID id tx) = Hash tx)
  /\ (forall c, Hash (snd (SetSize c tx)) = Hash tx)
  /\ Hash (snd (Size tx)) = Hash tx
  /\ (forall prevTXs ok tx', Verify tx prevTXs = Returns (ok, tx') -> Hash tx' = Hash tx).
Proof.
  split; [reflexivity|]. split.
  { unfold Hash, len. simpl. apply (proj2_sig (sha256_Sum256 _)). }
  split; [intros; apply Hash_set_ID|].
  split; [intros; apply Hash_set_size|].
  split.
  { destruct (Size_record tx) as [->|[c ->]]; [reflexivity|apply Hash_set_size]. }
  intros prevTXs ok tx' H. apply Verify_record in H. subst tx'.
  destruct (IsCoinbase tx); [reflexivity|]. apply Hash_set_size.
Qed.

(** The counter after writing the chunks is the length of what was
    written. *)
Lemma writeCounter_total (chunks : list bytes) (c : N) :
  fold_left (fun c b => fst (writeCounter_Write c b)) chunks c
  = (c + N.of_nat (length (concat chunks)))%N.
Proof.
  revert c. induction chunks as [|b chunks IH]; intros c; simpl.
  - lia.
  - rewrite IH, length_app. lia.
Qed.

Lemma Size_cached (tx : Transaction) (c : N) :
  size tx = Some c -> c <> 0%N -> Size tx = (c, tx).
Proof.
  intros Hc Hnz. unfold Size. rewrite Hc.
  destruct (N.eqb_spec c 0); [contradiction|reflexivity].
Qed.

Lemma Size_computed (tx : Transaction) :
  size tx = None \/ size tx = Some 0%N ->
  Size tx = (rlp_length tx, set_size (Some (rlp_length tx)) tx).
Proof.
  intros [H|H]; unfold Size, rlp_length; rewrite H; simpl;
    rewrite writeCounter_total; reflexivity.
Qed.

(** [Size] returns the stored size when a non-zero one is stored, in
    particular the one a preceding [SetSize] stored; otherwise it stores
    and returns the number of bytes that the encoder has handed to the
    write counter; a second call returns the same number. *)
Lemma Size_cache (tx : Transaction) :
  (forall c, size tx = Some c -> c <> 0%N -> Size tx = (c, tx))
  /\ (forall c, c <> 0%N -> (c <= 2 ^ 53)%N -> fst (Size (snd (SetSize c tx))) = c)
  /\ (size tx = None \/ size tx = Some 0%N ->
      Size tx = (rlp_length tx, set_size (Some (rlp_length tx)) tx))
  /\ fst (Size (snd (Size tx))) = fst (Size tx).
Proof.
  split; [apply Size_cached|].
  split.
  { intros c Hc _. unfold SetSize. simpl. by rewrite (Size_cached _ c). }
  split; [apply Size_computed|].
  destruct (size tx) as [c|] eqn:Hsz.
  - destruct (N.eq_dec c 0%N) as [->|Hnz].
    + rewrite (Size_computed tx) by auto. simpl.
      destruct (N.eq_dec (rlp_length tx) 0%N) as [H0|Hn0].
      * rewrite Size_computed by (right; simpl; by rewrite H0). reflexivity.
      * by rewrite (Size_cached _ (rlp_length tx)).
    + rewrite (Size_cached tx c) by done. simpl. by rewrite (Size_cached tx c).
  - rewrite (Size_computed tx) by auto. simpl.
    destruct (N.eq_dec (rlp_length tx) 0%N) as [H0|Hn0].
    + rewrite Size_computed by (right; simpl; by rewrite H0). reflexivity.
    + by rewrite (Size_cached _ (rlp_length tx)).
Qed.

(** The record type has no encoder, whatever the types of the inputs and
    outputs are: [Timestamp] is an [int64]. *)
Lemma Transaction_type_rejected (vin vout : GoType) :
  rlp_makeWriter (TPtr (TPtr (TStruct (Transaction_fields vin vout)))) = false.
Proof.
  cbn. destruct (rlp_makeWriter vin), (rlp_makeWriter vout); reflexivity.
Qed.

(** With go-ethereum's encoder nothing reaches the write counter. *)
Lemma rlp_length_zero (tx : Transaction) : rlp_of_go_ethereum L -> rlp_length tx = 0%N.
Proof.
  intros Hgo. unfold rlp_length.
  destruct (Hgo (ID tx) (Vin tx) (Vout tx) (Timestamp tx)) as [encoding ->].
  unfold rlp_Encode_writes, Transaction_type. by rewrite Transaction_type_rejected.
Qed.

(** C8. [Size] drops the error of [rlp.Encode]. The type of the record
    has no encoder in go-ethereum's rlp ([Timestamp] is an [int64], the
    output index and the value are [int]s), so the encoder returns its
    error and writes nothing: on a record whose size cell is empty or
    holds zero, [Size] stores and returns zero, and so does every later
    call. Zero is not the length of the serialization of a record. *)
Theorem Size_drops_encoder_error (tx : Transaction) :
  rlp_of_go_ethereum L ->
  size tx = None \/ size tx = Some 0%N ->
  rlp_makeWriter (TPtr (TPtr Transaction_type)) = false
  /\ Size tx = (0%N, set_size (Some 0%N) tx)
  /\ Size (snd (Size tx)) = (0%N, set_size (Some 0%N) tx)
  /\ (Serialize tx <> [] -> fst (Size tx) <> N.of_nat (length (Serialize tx))).
Proof.
  intros Hgo Hsz.
  assert (H0 : Size tx = (0%N, set_size (Some 0%N) tx)).
  { rewrite Size_computed by exact Hsz. by rewrite rlp_length_zero. }
  split; [apply Transaction_type_rejected|]. split; [exact H0|]. split.
  - rewrite H0. cbn [snd]. rewrite Size_computed by (right; reflexivity).
    by rewrite rlp_length_zero.
  - intros Hne. rewrite H0. cbn [fst]. destruct (Serialize tx); [contradiction|].
    simpl. lia.
Qed.

End Identity.

(** The reference instance hands the writer what go-ethereum does. *)
Lemma refLib_rlp_of_go_ethereum : rlp_of_go_ethereum refLib.
Proof.
  intros id vin vout ts. by exists [data id; ref_gob None vin vout ts].
Qed.

(** The theorem on [Ex.received], whose size cell is empty: [Size]
    returns zero, and the serialization of the record is not empty. *)
Lemma Size_drops_encoder_error_witness :
  size Ex.received = None
  /\ Serialize (L := refLib) Ex.received <> []
  /\ Size (L := refLib) Ex.received = (0%N, set_size (Some 0%N) Ex.received)
  /\ fst (Size (L := refLib) Ex.received)
     <> N.of_nat (length (Serialize (L := refLib) Ex.received)).
Proof.
  assert (Hne : Serialize (L := refLib) Ex.received <> []) by (vm_compute; discriminate).
  destruct (Size_drops_encoder_error (L := refLib) Ex.received
              refLib_rlp_of_go_ethereum (or_introl eq_refl)) as (_ & H0 & _ & Hlen).
  split; [reflexivity|]. split; [exact Hne|]. split; [exact H0|]. exact (Hlen Hne).
Defined.

(** ** References to prior transactions *)

Lemma checkPrevTXs_spec (vins : list TXInput) (prevTXs : gmap string Transaction) :
  checkPrevTXs vins prevTXs
  = if forallb (resolves prevTXs) vins then Returns tt
    else Panics (LogPanic missingPrevious).
Proof.
  induction vins as [|vin rest IH]; simpl; [reflexivity|].
  unfold resolves at 1, prevOf.
  destruct (ID (map_index prevTXs _)); simpl; [apply IH|reflexivity].
Qed.

Lemma index_in_range {A} (l : list A) (i : Z) :
  (0 <=? i) && (i <? Z.of_nat (length l)) = true -> exists a, index l i = Returns a.
Proof.
  intros H. apply andb_true_iff in H as [H0 H1].
  apply Z.leb_le in H0. apply Z.ltb_lt in H1.
  unfold index. destruct (Z.ltb_spec i 0); [lia|].
  destruct (l !! Z.to_nat i) as [a|] eqn:E; [eauto|].
  apply lookup_ge_None in E. lia.
Qed.

Lemma index_out_of_range {A} (l : list A) (i : Z) :
  (0 <=? i) && (i <? Z.of_nat (length l)) = false -> index l i = Panics IndexOutOfRange.
Proof.
  intros H. unfold index. destruct (Z.ltb_spec i 0); [reflexivity|].
  destruct (l !! Z.to_nat i) as [a|] eqn:E; [|reflexivity].
  apply lookup_lt_Some in E.
  apply andb_false_iff in H as [H|H].
  - apply Z.leb_gt in H. lia.
  - apply Z.ltb_ge in H. lia.
Qed.

(** ** What [Sign] leaves unchanged *)

Lemma map_unsigned_alter (sig : slice) (i : nat) (l : list TXInput) :
  map unsigned (alter (TXInput.set_Signature sig) i l) = map unsigned l.
Proof.
  revert i. induction l as [|vin l IH]; intros [|i]; simpl; try reflexivity.
  f_equal. apply IH.
Qed.

Section Frame.
Context {L : Lib}.

Lemma sign_loop_frame (privKey : ecdsa.PrivateKey) (prevTXs : gmap string Transaction)
    (vins : list TXInput) :
  forall (inID : nat) (tx txCopy tx' : Transaction) (g g' : Entropy),
    sign_loop privKey prevTXs inID vins tx txCopy g = Returns (tx', g') ->
    ID tx' = ID tx /\ Vout tx' = Vout tx /\ Timestamp tx' = Timestamp tx
    /\ size tx' = size tx /\ map unsigned (Vin tx') = map unsigned (Vin tx).
Proof.
  induction vins as [|vin rest IH]; intros inID tx txCopy tx' g g' H; simpl in H.
  - inversion H; subst. auto.
  - destruct (index _ _) as [out|]; simpl in H; [|discriminate].
    destruct (ecdsa_Sign _ _ _) as [[err|[r s]] g1]; [discriminate|].
    apply IH in H as (Hid & Hout & Hts & Hsz & Hin).
    simpl in *. rewrite map_unsigned_alter in Hin. auto.
Qed.

Lemma TrimmedCopy_receiver (tx : Transaction) :
  snd (TrimmedCopy tx) = set_size (Some (N.of_nat (length (Serialize tx)))) tx.
Proof. reflexivity. Qed.

(** The frame of [Sign]: all it changes are the signatures of the inputs
    and, through [TrimmedCopy], the size cell. *)
Lemma Sign_frame (tx tx' : Transaction) (privKey : ecdsa.PrivateKey)
    (prevTXs : gmap string Transaction) (g g' : Entropy) :
  Sign tx privKey prevTXs g = Returns (tx', g') ->
  ID tx' = ID tx /\ Vout tx' = Vout tx /\ Timestamp tx' = Timestamp tx
  /\ map unsigned (Vin tx') = map unsigned (Vin tx)
  /\ size tx' = if IsCoinbase tx then size tx
                else Some (N.of_nat (length (Serialize tx))).
Proof.
  unfold Sign. destruct (IsCoinbase tx).
  - intros H. inversion H; subst. auto.
  - destruct (checkPrevTXs _ _); simpl; [|discriminate].
    intros H. apply sign_loop_frame in H as (Hid & Hout & Hts & Hsz & Hin).
    simpl in *. auto.
Qed.

End Frame.

(** ** The loops of [Sign] and [Verify] *)

Lemma alter_trimmed (f : TXInput -> TXInput) (i : nat) (l : list TXInput) :
  (forall vin, f (trimmed vin) = trimmed vin) ->
  alter f i (map trimmed l) = map trimmed l.
Proof.
  intros Hf. revert i. induction l as [|vin l IH]; intros [|i]; simpl; try reflexivity.
  - by rewrite Hf.
  - f_equal. apply IH.
Qed.

Lemma alter_alter_trimmed (f h : TXInput -> TXInput) (i : nat) (l : list TXInput) :
  (forall vin, f (h (trimmed vin)) = trimmed vin) ->
  alter f i (alter h i (map trimmed l)) = map trimmed l.
Proof.
  intros Hf. revert i. induction l as [|vin l IH]; intros [|i]; simpl; try reflexivity.
  - by rewrite Hf.
  - f_equal. apply IH.
Qed.

Section Loops.
Context {L : Lib}.

Lemma verify_loop_checks (prevTXs : gmap string Transaction) (id : slice)
    (l : list TXInput) (outs : list TXOutput) (ts : Z) (sz : option StorageSize)
    (vins : list TXInput) (inID : nat) :
  let txCopy := mkTransaction id (map trimmed l) outs ts sz in
  verify_loop prevTXs inID vins txCopy = checks prevTXs txCopy inID vins.
Proof.
  intros txCopy. revert inID. induction vins as [|vin rest IH]; intros inID.
  - reflexivity.
  - cbn [verify_loop checks]. fold (prevOf prevTXs vin).
    assert (Hsig : alter_Vin (TXInput.set_Signature None) inID txCopy = txCopy).
    { unfold alter_Vin, txCopy, set_Vin. simpl. by rewrite alter_trimmed. }
    rewrite Hsig.
    destruct (index _ _) as [out|p]; cbn [mbind outcome_bind]; [|reflexivity].
    unfold signature_ok, signedData.
    destruct (splitHalves (TXInput.Signature vin)) as [r s].
    destruct (splitHalves (TXInput.PubKey vin)) as [x y].
    destruct (ecdsa_Verify _ _ _ _); cbn [negb]; [|reflexivity].
    assert (Hkey : alter_Vin (TXInput.set_PubKey None) inID
                     (alter_Vin (TXInput.set_PubKey (PubKeyHash out)) inID txCopy) = txCopy).
    { unfold alter_Vin, txCopy, set_Vin. simpl. by rewrite alter_alter_trimmed. }
    rewrite Hkey. apply IH.
Qed.

(** With every index in range the checks return a boolean: true exactly
    when every input passes. *)
Lemma checks_in_range (prevTXs : gmap string Transaction) (txCopy : Transaction)
    (vins : list TXInput) :
  forallb (in_range prevTXs) vins = true ->
  forall inID, exists ok,
    checks prevTXs txCopy inID vins = Returns ok
    /\ (ok = true <->
        forall k vin out,
          vins !! k = Some vin ->
          index (Vout (prevOf prevTXs vin)) (TXInput.Vout vin) = Returns out ->
          signature_ok txCopy (inID + k) vin out = true).
Proof.
  induction vins as [|vin rest IH]; intros Hr inID.
  - exists true. split; [reflexivity|]. split; [|reflexivity].
    intros _ k vin out Hk. by rewrite lookup_nil in Hk.
  - simpl in Hr. apply andb_true_iff in Hr as [Hvin Hrest].
    destruct (index_in_range _ _ Hvin) as [out Hout].
    cbn [checks]. rewrite Hout. simpl.
    destruct (signature_ok txCopy inID vin out) eqn:Hok.
    + destruct (IH Hrest (S inID)) as (ok & Hchk & Hiff).
      exists ok. split; [exact Hchk|]. rewrite Hiff. split.
      * intros H [|k] vin' out' Hk Hi; simpl in Hk.
        -- inversion Hk; subst vin'. rewrite Hout in Hi. inversion Hi; subst out'.
           by rewrite Nat.add_0_r.
        -- replace (inID + S k)%nat with (S inID + k)%nat by lia. by apply H.
      * intros H k vin' out' Hk Hi.
        replace (S inID + k)%nat with (inID + S k)%nat by lia. by apply H.
    + exists false. split; [reflexivity|]. split; [discriminate|].
      intros H. specialize (H 0%nat vin out eq_refl Hout).
      rewrite Nat.add_0_r in H. congruence.
Qed.

(** The outcomes the checking loop can have. *)
Lemma checks_outcome (prevTXs : gmap string Transaction) (txCopy : Transaction)
    (vins : list TXInput) :
  forall inID,
    match checks prevTXs txCopy inID vins with
    | Returns true => forallb (in_range prevTXs) vins = true
    | Returns false => True
    | Panics IndexOutOfRange => forallb (in_range prevTXs) vins = false
    | Panics _ => False
    end.
Proof.
  induction vins as [|vin rest IH]; intros inID; [reflexivity|].
  cbn [checks forallb].
  destruct (in_range prevTXs vin) eqn:Hvin.
  - destruct (index_in_range _ _ Hvin) as [out Hout]. rewrite Hout. simpl.
    destruct (signature_ok _ _ _ _); [apply IH|exact I].
  - rewrite (index_out_of_range _ _ Hvin). reflexivity.
Qed.

(** The outcomes the signing loop can have. *)
Lemma sign_loop_outcome (privKey : ecdsa.PrivateKey) (prevTXs : gmap string Transaction)
    (vins : list TXInput) :
  forall inID tx txCopy g,
    match sign_loop privKey prevTXs inID vins tx txCopy g with
    | Returns _ => forallb (in_range prevTXs) vins = true
    | Panics IndexOutOfRange => forallb (in_range prevTXs) vins = false
    | Panics (LogPanicErr (ErrLib _)) => True
    | Panics _ => False
    end.
Proof.
  induction vins as [|vin rest IH]; intros inID tx txCopy g; [reflexivity|].
  cbn [sign_loop forallb]. fold (prevOf prevTXs vin).
  destruct (in_range prevTXs vin) eqn:Hvin.
  - destruct (index_in_range _ _ Hvin) as [out Hout]. rewrite Hout. simpl.
    destruct (ecdsa_Sign _ _ _) as [[err|[r s]] g1]; [exact I|apply IH].
  - rewrite (index_out_of_range _ _ Hvin). reflexivity.
Qed.

End Loops.

(** ** Missing references and output indices *)

Section References.
Context {L : Lib}.

Lemma Verify_checks (tx : Transaction) (prevTXs : gmap string Transaction) :
  IsCoinbase tx = false ->
  forallb (resolves prevTXs) (Vin tx) = true ->
  Verify tx prevTXs
  = (ok ← checks prevTXs (fst (TrimmedCopy tx)) 0 (Vin tx);
     Returns (ok, snd (TrimmedCopy tx))).
Proof.
  intros Hcb Hres. unfold Verify. rewrite Hcb, checkPrevTXs_spec, Hres.
  cbn [mbind outcome_bind]. unfold TrimmedCopy. cbn [fst snd].
  by rewrite (verify_loop_checks prevTXs (ID tx) (Vin tx)).
Qed.

Lemma Sign_unresolved (tx : Transaction) (privKey : ecdsa.PrivateKey)
    (prevTXs : gmap string Transaction) (g : Entropy) :
  IsCoinbase tx = false ->
  forallb (resolves prevTXs) (Vin tx) = false ->
  Sign tx privKey prevTXs g = Panics (LogPanic missingPrevious).
Proof.
  intros Hcb Hres. unfold Sign. by rewrite Hcb, checkPrevTXs_spec, Hres.
Qed.

Lemma Verify_unresolved (tx : Transaction) (prevTXs : gmap string Transaction) :
  IsCoinbase tx = false ->
  forallb (resolves prevTXs) (Vin tx) = false ->
  Verify tx prevTXs = Panics (LogPanic missingPrevious).
Proof.
  intros Hcb Hres. unfold Verify. by rewrite Hcb, checkPrevTXs_spec, Hres.
Qed.

Lemma Sign_resolved (tx : Transaction) (privKey : ecdsa.PrivateKey)
    (prevTXs : gmap string Transaction) (g : Entropy) :
  IsCoinbase tx = false ->
  forallb (resolves prevTXs) (Vin tx) = true ->
  Sign tx privKey prevTXs g
  = sign_loop privKey prevTXs 0 (map trimmed (Vin tx)) (snd (TrimmedCopy tx))
      (fst (TrimmedCopy tx)) g.
Proof.
  intros Hcb Hres. unfold Sign. by rewrite Hcb, checkPrevTXs_spec, Hres.
Qed.

Lemma in_range_trimmed (prevTXs : gmap string Transaction) (vins : list TXInput) :
  forallb (in_range prevTXs) (map trimmed vins) = forallb (in_range prevTXs) vins.
Proof. induction vins as [|vin rest IH]; simpl; [reflexivity|]. by rewrite IH. Qed.

(** C3, as the code has it. On a record that is no coinbase, [Sign] and
    [Verify] panic through [log.Panic] with the message of the missing
    previous transaction when the reference of some input does not resolve:
    no error value reaches the caller. When all references resolve and all
    output indices are in range, [Verify] returns a boolean whatever bytes
    the signatures and keys hold, and the boolean is true exactly when
    [ecdsa.Verify] accepts every input: a signature that does not check
    gives false. *)
Theorem missing_reference_panics (tx : Transaction) (privKey : ecdsa.PrivateKey)
    (prevTXs : gmap string Transaction) (g : Entropy) :
  IsCoinbase tx = false ->
  (forallb (resolves prevTXs) (Vin tx) = false ->
   Sign tx privKey prevTXs g = Panics (LogPanic missingPrevious)
   /\ Verify tx prevTXs = Panics (LogPanic missingPrevious))
  /\ (forallb (resolves prevTXs) (Vin tx) = true ->
      forallb (in_range prevTXs) (Vin tx) = true ->
      exists ok,
        Verify tx prevTXs = Returns (ok, snd (TrimmedCopy tx))
        /\ (ok = true <->
            forall k vin out,
              Vin tx !! k = Some vin ->
              index (Vout (prevOf prevTXs vin)) (TXInput.Vout vin) = Returns out ->
              signature_ok (fst (TrimmedCopy tx)) k vin out = true)).
Proof.
  intros Hcb. split.
  - intros Hres. split; [by apply Sign_unresolved|by apply Verify_unresolved].
  - intros Hres Hrange. rewrite Verify_checks by assumption.
    destruct (checks_in_range prevTXs (fst (TrimmedCopy tx)) (Vin tx) Hrange 0%nat)
      as (ok & Hchk & Hiff).
    exists ok. rewrite Hchk. split; [reflexivity|exact Hiff].
Qed.

(** C10. On a record whose references all resolve: when every output
    index is in range, neither [Sign] nor [Verify] ends in the
    index-out-of-range panic; and whatever the indices are, neither reports
    the missing previous transaction. When the record is no coinbase and
    some index is out of range, [Sign] ends in the index-out-of-range panic
    unless the signer failed on an earlier input, and [Verify] ends in it
    unless an earlier input already failed its check. *)
Theorem output_index_unchecked (tx : Transaction) (privKey : ecdsa.PrivateKey)
    (prevTXs : gmap string Transaction) (g : Entropy) :
  forallb (resolves prevTXs) (Vin tx) = true ->
  (forallb (in_range prevTXs) (Vin tx) = true ->
   Sign tx privKey prevTXs g <> Panics IndexOutOfRange
   /\ Verify tx prevTXs <> Panics IndexOutOfRange)
  /\ Sign tx privKey prevTXs g <> Panics (LogPanic missingPrevious)
  /\ Verify tx prevTXs <> Panics (LogPanic missingPrevious)
  /\ (IsCoinbase tx = false ->
      forallb (in_range prevTXs) (Vin tx) = false ->
      (Sign tx privKey prevTXs g = Panics IndexOutOfRange
       \/ exists text, Sign tx privKey prevTXs g = Panics (LogPanicErr (ErrLib text)))
      /\ (Verify tx prevTXs = Panics IndexOutOfRange
          \/ exists tx', Verify tx prevTXs = Returns (false, tx'))).
Proof.
  intros Hres. destruct (IsCoinbase tx) eqn:Hcb.
  { unfold Sign, Verify. rewrite Hcb.
    repeat split; try discriminate. }
  rewrite Sign_resolved, Verify_checks by assumption.
  pose proof (sign_loop_outcome privKey prevTXs (map trimmed (Vin tx)) 0%nat
                (snd (TrimmedCopy tx)) (fst (TrimmedCopy tx)) g) as HS.
  pose proof (checks_outcome prevTXs (fst (TrimmedCopy tx)) (Vin tx) 0%nat) as HV.
  rewrite in_range_trimmed in HS.
  destruct (sign_loop _ _ _ _ _ _ _) as [[tx1 g1]|[msg|[|text]|]];
    destruct (checks _ _ _ _) as [[|]|[msg'|[|text']|]];
    cbn [mbind outcome_bind]; try contradiction;
    (split; [intros Hr; split; congruence|]);
    (split; [discriminate|]); (split; [discriminate|]);
    intros _ Hr; try congruence; split; eauto.
Qed.

Lemma sign_loop_signed (privKey : ecdsa.PrivateKey) (prevTXs : gmap string Transaction)
    (vins : list TXInput) :
  forall (inID : nat) (tx txCopy tx' : Transaction) (g g' : Entropy),
    length (Vin tx) = (inID + length vins)%nat ->
    Forall signed (take inID (Vin tx)) ->
    sign_loop privKey prevTXs inID vins tx txCopy g = Returns (tx', g') ->
    Forall signed (Vin tx').
Proof.
  induction vins as [|vin rest IH]; intros inID tx txCopy tx' g g' Hlen Hdone H;
    cbn [sign_loop] in H.
  - inversion H; subst. rewrite take_ge in Hdone by (simpl in Hlen; lia). exact Hdone.
  - destruct (index _ _) as [out|]; cbn [mbind outcome_bind] in H; [|discriminate].
    destruct (ecdsa_Sign _ _ _) as [[err|[r s]] g1]; [discriminate|].
    apply IH in H; [exact H| |].
    + unfold alter_Vin. cbn [Vin set_Vin length] in *. rewrite length_alter. lia.
    + unfold alter_Vin. cbn [Vin set_Vin length] in *.
      destruct (Vin tx !! inID) as [x|] eqn:Ex.
      * rewrite (take_S_r _ _ (TXInput.set_Signature (Some (concatComponents r s)) x)).
        -- rewrite take_alter. case_decide; [lia|].
           apply Forall_app. split; [exact Hdone|].
           repeat constructor. by exists r, s.
        -- rewrite list_lookup_alter. case_decide; [|congruence]. by rewrite Ex.
      * apply lookup_ge_None in Ex. lia.
Qed.

(** C9, as the code has it. When [Sign] returns on a record that is no
    coinbase and whose references resolve, the id, the outputs, the
    timestamp and every field of the inputs other than the signature are
    as before; every input holds a signature, the bytes of the two
    components one after the other; and the size cell holds the length of
    the serialization of the record as it was passed in, stored by
    [TrimmedCopy]. The trimmed copy is no part of the result. *)
Theorem Sign_updates_signatures_and_size (tx tx' : Transaction)
    (privKey : ecdsa.PrivateKey) (prevTXs : gmap string Transaction) (g g' : Entropy) :
  IsCoinbase tx = false ->
  forallb (resolves prevTXs) (Vin tx) = true ->
  Sign tx privKey prevTXs g = Returns (tx', g') ->
  ID tx' = ID tx /\ Vout tx' = Vout tx /\ Timestamp tx' = Timestamp tx
  /\ map unsigned (Vin tx') = map unsigned (Vin tx)
  /\ Forall signed (Vin tx')
  /\ size tx' = Some (N.of_nat (length (Serialize tx))).
Proof.
  intros Hcb Hres H. pose proof H as HF. apply Sign_frame in HF. rewrite Hcb in HF.
  destruct HF as (Hid & Hout & Hts & Hin & Hsz).
  repeat (split; [assumption|]). split; [|assumption].
  rewrite Sign_resolved in H by assumption.
  apply sign_loop_signed in H; [exact H| |].
  - cbn [TrimmedCopy snd SetSize set_size Vin]. by rewrite length_map.
  - constructor.
Qed.

End References.

(** ** The properties on concrete records *)

(** The record [Ex.spend] against an empty map of prior transactions: the
    missing reference ends [Verify] and [Sign] in a panic, and no value,
    error or other, is handed to the caller. *)
Lemma missing_reference_not_surfaced :
  IsCoinbase Ex.spend = false
  /\ forallb (resolves ∅) (Vin Ex.spend) = false
  /\ Verify (L := refLib) Ex.spend ∅ = Panics (LogPanic missingPrevious)
  /\ ~ surfaced_as_value (Verify (L := refLib) Ex.spend ∅)
  /\ ~ surfaced_as_value (Sign (L := refLib) Ex.spend Ex.priv ∅ [1]).
Proof.
  split; [reflexivity|]. split; [reflexivity|]. split; [reflexivity|].
  split; intros [a Ha]; vm_compute in Ha; discriminate.
Qed.

(** The same record against the empty map and against the map that holds
    the transaction it spends. *)
Lemma missing_reference_panics_witness :
  (Sign (L := refLib) Ex.spend Ex.priv ∅ [1] = Panics (LogPanic missingPrevious)
   /\ Verify (L := refLib) Ex.spend ∅ = Panics (LogPanic missingPrevious))
  /\ exists ok,
       Verify (L := refLib) Ex.spend Ex.prevTXs
       = Returns (ok, snd (TrimmedCopy (L := refLib) Ex.spend)).
Proof.
  split.
  - apply (missing_reference_panics (L := refLib) Ex.spend Ex.priv ∅ [1]);
      reflexivity.
  - destruct (missing_reference_panics (L := refLib) Ex.spend Ex.priv Ex.prevTXs [1])
      as [_ H]; [reflexivity|].
    destruct H as (ok & Hv & _); [vm_compute; reflexivity|vm_compute; reflexivity|].
    exists ok. exact Hv.
Defined.

(** Signatures that are absent, of odd length or arbitrary give the result
    false, and so does a key that is no point of the curve. *)
Example Verify_invalid_signatures :
  (exists tx', Verify (L := refLib) Ex.spend Ex.prevTXs = Returns (false, tx'))
  /\ (exists tx',
        Verify (L := refLib)
          (alter_Vin (TXInput.set_Signature (Some [Byte.x01; Byte.x02; Byte.x03])) 0 Ex.spend)
          Ex.prevTXs = Returns (false, tx'))
  /\ (exists tx',
        Verify (L := refLib)
          (alter_Vin (TXInput.set_PubKey (Some [Byte.x07])) 0
             (alter_Vin (TXInput.set_Signature (Some (replicate 64 Byte.x05))) 0 Ex.spend))
          Ex.prevTXs = Returns (false, tx')).
Proof. repeat split; eexists; vm_compute; reflexivity. Qed.

(** On a coinbase record [Sign] changes nothing and draws no nonce. *)
Example Sign_coinbase :
  Sign (L := refLib) Ex.prevTx Ex.priv ∅ [1] = Returns (Ex.prevTx, [1]).
Proof. reflexivity. Qed.

(** The record [Ex.received], whose size cell is empty, signed against the
    prior transaction it spends: [Sign] returns and the cell is no longer
    what it was. *)
Lemma Sign_overwrites_cached_size :
  IsCoinbase Ex.received = false
  /\ forallb (resolves Ex.prevTXs) (Vin Ex.received) = true
  /\ exists tx' g',
       Sign (L := refLib) Ex.received Ex.priv Ex.prevTXs [1] = Returns (tx', g')
       /\ size Ex.received = None
       /\ size tx' <> size Ex.received.
Proof.
  split; [reflexivity|]. split; [vm_compute; reflexivity|].
  eexists _, _. split; [vm_compute; reflexivity|].
  split; [reflexivity|]. discriminate.
Qed.

(** The frame of [Sign] on [Ex.received]. *)
Lemma Sign_updates_signatures_and_size_witness :
  exists tx' g',
    Sign (L := refLib) Ex.received Ex.priv Ex.prevTXs [1] = Returns (tx', g')
    /\ ID tx' = ID Ex.received /\ Vout tx' = Vout Ex.received
    /\ Timestamp tx' = Timestamp Ex.received
    /\ map unsigned (Vin tx') = map unsigned (Vin Ex.received)
    /\ Forall signed (Vin tx')
    /\ size tx' = Some (N.of_nat (length (Serialize (L := refLib) Ex.received))).
Proof.
  eexists _, _. split; [vm_compute; reflexivity|].
  apply (Sign_updates_signatures_and_size (L := refLib) Ex.received _ Ex.priv
           Ex.prevTXs [1] []);
    vm_compute; reflexivity.
Defined.

(** [Ex.spend], whose index is in range, and [Ex.badIndex], whose index is
    not. *)
Lemma output_index_unchecked_witness :
  (Sign (L := refLib) Ex.spend Ex.priv Ex.prevTXs [1] <> Panics IndexOutOfRange
   /\ Verify (L := refLib) Ex.spend Ex.prevTXs <> Panics IndexOutOfRange)
  /\ (Sign (L := refLib) Ex.badIndex Ex.priv Ex.prevTXs [1]
        <> Panics (LogPanic missingPrevious)
      /\ Verify (L := refLib) Ex.badIndex Ex.prevTXs <> Panics (LogPanic missingPrevious)).
Proof.
  split.
  - apply (output_index_unchecked (L := refLib) Ex.spend Ex.priv Ex.prevTXs [1]);
      vm_compute; reflexivity.
  - destruct (output_index_unchecked (L := refLib) Ex.badIndex Ex.priv Ex.prevTXs [1])
      as (_ & HS & HV & _); [vm_compute; reflexivity|].
    split; assumption.
Defined.

(** The record with the bad index ends both functions in the run-time
    panic. *)
Example badIndex_panics :
  Sign (L := refLib) Ex.badIndex Ex.priv Ex.prevTXs [1] = Panics IndexOutOfRange
  /\ Verify (L := refLib) Ex.badIndex Ex.prevTXs = Panics IndexOutOfRange.
Proof. split; vm_compute; reflexivity. Qed.

(** ** The signature bytes: concatenation and split *)

Lemma be_value_bound (b : bytes) : (be_value b < 256 ^ N.of_nat (length b))%N.
Proof.
  induction b as [|c b IH] using rev_ind.
  - reflexivity.
  - rewrite be_value_app, length_app. cbn [length be_value fold_left].
    pose proof (Byte.to_N_bounded c).
    replace (N.of_nat (length b + 1)) with (N.succ (N.of_nat (length b))) by lia.
    rewrite N.pow_succ_r'. change (256 ^ N.of_nat 1)%N with 256%N. lia.
Qed.

Lemma be_value_zeros (k : nat) (b : bytes) :
  be_value (replicate k Byte.x00 ++ b) = be_value b.
Proof.
  induction k as [|k IH]; [reflexivity|].
  simpl. unfold be_value in *. simpl. exact IH.
Qed.

Lemma splitHalves_app (a b : bytes) :
  (length a <= length b <= length a + 1)%nat ->
  splitHalves (Some (a ++ b)) = (big_SetBytes a, big_SetBytes b).
Proof.
  intros H. unfold splitHalves, len.
  change (data (Some (a ++ b))) with (a ++ b).
  assert (Hhalf : ((length (a ++ b)) / 2 = length a)%nat).
  { rewrite length_app. symmetry.
    apply Nat.div_unique with (r := (length b - length a)%nat); lia. }
  rewrite Hhalf, take_app_length, drop_app_length. reflexivity.
Qed.

(** The split recovers the components when [s] has as many bytes as [r],
    or one more. *)
Lemma splitHalves_concat_recovers (r s : Z) :
  0 <= r -> 0 <= s ->
  (length (big_Bytes r) <= length (big_Bytes s) <= length (big_Bytes r) + 1)%nat ->
  splitHalves (Some (concatComponents r s)) = (r, s).
Proof.
  intros Hr Hs Hlen. unfold concatComponents.
  rewrite splitHalves_app by exact Hlen.
  by rewrite !big_SetBytes_Bytes.
Qed.

(** With both components padded to a common width, as [paddedAppend] pads
    the private key in [wallets.go], the split always recovers them. *)
Lemma splitHalves_padded_recovers (width : nat) (r s : Z) :
  0 <= r -> 0 <= s ->
  (length (big_Bytes r) <= width)%nat -> (length (big_Bytes s) <= width)%nat ->
  splitHalves (Some (paddedAppend width [] (big_Bytes r)
                       ++ paddedAppend width [] (big_Bytes s))) = (r, s).
Proof.
  intros Hr Hs Hlr Hls.
  assert (Hpad : forall b : bytes, (length b <= width)%nat ->
                   length (paddedAppend width [] b) = width).
  { intros b Hb. unfold paddedAppend. simpl. rewrite length_app, length_replicate. lia. }
  rewrite splitHalves_app by (rewrite !Hpad by assumption; lia).
  unfold paddedAppend, big_SetBytes. simpl. rewrite !be_value_zeros.
  fold (big_SetBytes (big_Bytes r)). fold (big_SetBytes (big_Bytes s)).
  by rewrite !big_SetBytes_Bytes.
Qed.

(** When [s] has fewer bytes than [r], the first half of the stored
    signature is a proper prefix of the bytes of [r], and the integer read
    from it is smaller than [r]. *)
Lemma splitHalves_concat_loses (r s : Z) :
  0 <= r ->
  (length (big_Bytes s) < length (big_Bytes r))%nat ->
  fst (splitHalves (Some (concatComponents r s))) < r.
Proof.
  intros Hr Hlen. unfold splitHalves, concatComponents, len.
  change (data (Some (big_Bytes r ++ big_Bytes s))) with (big_Bytes r ++ big_Bytes s).
  cbn [fst].
  assert (Hpos : 0 < r).
  { destruct (Z.eq_dec r 0) as [->|]; [|lia]. vm_compute in Hlen. lia. }
  pose proof (big_SetBytes_Bytes r Hr) as HR. unfold big_SetBytes in HR |- *.
  remember (big_Bytes r) as R eqn:ER. remember (big_Bytes s) as S eqn:ES.
  set (half := (length (R ++ S) / 2)%nat).
  assert (Hhalf : (half < length R)%nat).
  { unfold half. rewrite length_app. apply Nat.Div0.div_lt_upper_bound. lia. }
  rewrite take_app_le by lia.
  rewrite <- (take_drop half R) in HR. rewrite be_value_app in HR.
  assert (Hp : (256 <= 256 ^ N.of_nat (length (drop half R)))%N).
  { rewrite length_drop.
    replace (N.of_nat (length R - half)) with (N.succ (N.of_nat (length R - half - 1)))
      by lia.
    rewrite N.pow_succ_r'.
    assert (0 < 256 ^ N.of_nat (length R - half - 1))%N
      by (apply N.neq_0_lt_0, N.pow_nonzero; lia).
    lia. }
  destruct (N.eq_dec (be_value (take half R)) 0%N) as [H0|Hn0]; [rewrite H0; lia|].
  nia.
Qed.

(** C4, on the code. With the nonce 443 the signer returns, for the key
    of [Ex] and the bytes signed for the input of [Ex.spend], a component
    [r] of 32 bytes and a component [s] of 31 bytes. [Sign] stores their 63
    bytes unpadded, and the halves that [Verify] reads from them are not
    the two components. *)
Theorem signature_split_loses_components :
  exists r s,
    ecdsa_Sign (Lib := refLib) [443] Ex.priv
      (signedData (fst (TrimmedCopy (L := refLib) Ex.spend)) 0
         (mkTXOutput 100 Ex.ownerHash))
    = (inr (r, s), [])
    /\ length (big_Bytes r) = 32%nat
    /\ length (big_Bytes s) = 31%nat
    /\ splitHalves (Some (concatComponents r s)) <> (r, s).
Proof.
  eexists _, _. split; [vm_compute; reflexivity|].
  split; [vm_compute; reflexivity|].
  split; [vm_compute; reflexivity|].
  intros H. vm_compute in H. discriminate.
Qed.

(** C1, on the code. The record [Ex.spend] has one input, which spends an
    output owned by the hash of the key of [Ex] and carries that key;
    signed with the private key and the nonce 443, it does not verify
    against the same prior transactions. *)
Theorem sign_verify_round_trip_fails :
  IsCoinbase Ex.spend = false
  /\ forallb (resolves Ex.prevTXs) (Vin Ex.spend) = true
  /\ forallb (in_range Ex.prevTXs) (Vin Ex.spend) = true
  /\ exists tx' g',
       Sign (L := refLib) Ex.spend Ex.priv Ex.prevTXs [443] = Returns (tx', g')
       /\ exists tx'', Verify (L := refLib) tx' Ex.prevTXs = Returns (false, tx'').
Proof.
  split; [reflexivity|].
  split; [vm_compute; reflexivity|].
  split; [vm_compute; reflexivity|].
  eexists _, _. split; [vm_compute; reflexivity|].
  eexists. vm_compute. reflexivity.
Qed.

(** With a nonce that gives two components of 32 bytes the same record
    verifies, and [ecdsa.Verify] accepts the components of nonce 443
    themselves: the failure above is the split of the stored bytes. *)
Example sign_verify_round_trip_nonce_1 :
  exists tx' g',
    Sign (L := refLib) Ex.spend Ex.priv Ex.prevTXs [1] = Returns (tx', g')
    /\ exists tx'', Verify (L := refLib) tx' Ex.prevTXs = Returns (true, tx'').
Proof.
  eexists _, _. split; [vm_compute; reflexivity|].
  eexists. vm_compute. reflexivity.
Qed.

Example components_of_nonce_443_verify :
  let msg := signedData (fst (TrimmedCopy (L := refLib) Ex.spend)) 0
               (mkTXOutput 100 Ex.ownerHash) in
  match ecdsa_Sign (Lib := refLib) [443] Ex.priv msg with
  | (inr (r, s), _) => ecdsa_Verify (Lib := refLib) (ecdsa.Public Ex.priv) msg r s
  | _ => false
  end = true.
Proof. vm_compute. reflexivity. Qed.

(** ** The self-transfer check *)

Lemma hex_EncodeToString_length (b : bytes) :
  String.length (hex_EncodeToString b) = (2 * length b)%nat.
Proof.
  induction b as [|c b IH]; [reflexivity|].
  change (hex_EncodeToString (c :: b))
    with (String (hexdigit (Byte.to_N c / 16))
            (String (hexdigit (Byte.to_N c mod 16)) (hex_EncodeToString b))).
  cbn [String.length length]. rewrite IH. lia.
Qed.

Lemma fromEqualsTo_false (vins : list TXInput) (to : slice) :
  Forall (fun txin => len (TXInput.PubKey txin) <> len to) vins ->
  fromEqualsTo vins to = false.
Proof.
  induction 1 as [|txin rest Hlen _ IH]; [reflexivity|].
  cbn [fromEqualsTo].
  destruct (String.eqb_spec (hex_EncodeToString (data (TXInput.PubKey txin)))
              (hex_EncodeToString (data to))) as [E|_]; [|exact IH].
  exfalso. apply Hlen. unfold len.
  apply (f_equal String.length) in E. rewrite !hex_EncodeToString_length in E. lia.
Qed.

(** C2, on the code. The check compares the raw key of each input with
    the owner hash of the first output and hashes nothing: a record that
    is no coinbase passes whenever no input key has the length of that
    owner hash, also when the hash of an input key is that owner hash. *)
Theorem VeryfyFromToAddress_compares_raw_keys (tx : Transaction) (vout0 : TXOutput)
    (rest : list TXOutput) :
  IsCoinbase tx = false ->
  Vout tx = vout0 :: rest ->
  Forall (fun txin => len (TXInput.PubKey txin) <> len (PubKeyHash vout0)) (Vin tx) ->
  VeryfyFromToAddress tx = true.
Proof.
  intros Hcb Hout Hlen. unfold VeryfyFromToAddress. rewrite Hcb, Hout.
  by rewrite fromEqualsTo_false.
Qed.

(** The record [Ex.selfTransfer]: the hash of the key of its input is the
    owner hash of its sole output, and the check passes. *)
Lemma VeryfyFromToAddress_compares_raw_keys_witness :
  (exists txin, txin ∈ Vin Ex.selfTransfer
     /\ HashPubKey (Collab := refCollab) (TXInput.PubKey txin) = Ex.ownerHash)
  /\ Vout Ex.selfTransfer = [mkTXOutput 100 Ex.ownerHash]
  /\ VeryfyFromToAddress Ex.selfTransfer = true.
Proof.
  split.
  { eexists. split; [apply list_elem_of_here|]. vm_compute. reflexivity. }
  split; [reflexivity|].
  apply (VeryfyFromToAddress_compares_raw_keys Ex.selfTransfer
           (mkTXOutput 100 Ex.ownerHash) []).
  - reflexivity.
  - reflexivity.
  - repeat constructor. vm_compute. lia.
Defined.

Lemma fromHexChar_hexdigit (n : N) : (n < 16)%N -> fromHexChar (hexdigit n) = Some n.
Proof.
  intros H. rewrite <- (N2Nat.id n).
  assert (Hk : (N.to_nat n < 16)%nat) by lia.
  remember (N.to_nat n) as k eqn:Ek. clear Ek H.
  do 16 (destruct k as [|k]; [reflexivity|]). lia.
Qed.

(** [hex.DecodeString] inverts [hex.EncodeToString]. *)
Lemma hex_DecodeString_EncodeToString (b : bytes) :
  hex_DecodeString (hex_EncodeToString b) = Some b.
Proof.
  induction b as [|c b IH]; [reflexivity|].
  change (hex_EncodeToString (c :: b))
    with (String (hexdigit (Byte.to_N c / 16))
            (String (hexdigit (Byte.to_N c mod 16)) (hex_EncodeToString b))).
  cbn [hex_DecodeString].
  pose proof (Byte.to_N_bounded c) as Hc.
  rewrite !fromHexChar_hexdigit, IH.
  - rewrite <- N.div_mod by lia. unfold byte_of_N. by rewrite Byte.of_to_N.
  - apply N.mod_lt. lia.
  - apply N.Div0.div_lt_upper_bound. lia.
Qed.

Lemma hex_EncodeToString_inj (a b : bytes) :
  hex_EncodeToString a = hex_EncodeToString b -> a = b.
Proof.
  intros H. apply (f_equal hex_DecodeString) in H.
  rewrite !hex_DecodeString_EncodeToString in H. congruence.
Qed.

Lemma fromEqualsTo_true_iff (vins : list TXInput) (to : slice) :
  fromEqualsTo vins to = true <->
  exists txin, txin ∈ vins /\ data (TXInput.PubKey txin) = data to.
Proof.
  induction vins as [|txin rest IH]; cbn [fromEqualsTo].
  - split; [discriminate|]. intros (txin & Hin & _). by apply elem_of_nil in Hin.
  - destruct (String.eqb_spec (hex_EncodeToString (data (TXInput.PubKey txin)))
                (hex_EncodeToString (data to))) as [E|NE].
    + split; [|reflexivity]. intros _. exists txin. split; [apply list_elem_of_here|].
      by apply hex_EncodeToString_inj.
    + rewrite IH. split.
      * intros (t & Hin & Ht). exists t. split; [by apply list_elem_of_further|exact Ht].
      * intros (t & Hin & Ht). apply elem_of_cons in Hin as [->|Hin].
        -- by rewrite Ht in NE.
        -- exists t. by split.
Qed.

(** What the check decides: it rejects exactly the records that are no
    coinbase, have an output, and have an input whose raw key is, byte for
    byte, the owner hash of the first output. It accepts every coinbase
    record and every record without outputs. *)
Lemma VeryfyFromToAddress_false_iff (tx : Transaction) :
  VeryfyFromToAddress tx = false <->
  IsCoinbase tx = false
  /\ exists vout0 rest txin,
       Vout tx = vout0 :: rest /\ txin ∈ Vin tx
       /\ data (TXInput.PubKey txin) = data (PubKeyHash vout0).
Proof.
  unfold VeryfyFromToAddress. destruct (IsCoinbase tx).
  - split; [discriminate|]. intros [H _]. discriminate.
  - destruct (Vout tx) as [|vout0 rest].
    + split; [discriminate|]. intros (_ & ? & ? & ? & H & _). discriminate.
    + destruct (fromEqualsTo (Vin tx) (PubKeyHash vout0)) eqn:E.
      * apply fromEqualsTo_true_iff in E as (txin & Hin & Hkey).
        split; [|reflexivity]. intros _. split; [reflexivity|].
        by exists vout0, rest, txin.
      * split; [discriminate|]. intros (_ & v & r & txin & Hv & Hin & Hkey).
        inversion Hv; subst v r.
        assert (fromEqualsTo (Vin tx) (PubKeyHash vout0) = true)
          by (apply fromEqualsTo_true_iff; eauto).
        congruence.
Qed.

Lemma VeryfyFromToAddress_exempt (tx : Transaction) :
  IsCoinbase tx = true \/ Vout tx = [] -> VeryfyFromToAddress tx = true.
Proof.
  intros [H|H]; unfold VeryfyFromToAddress; rewrite H; [reflexivity|].
  by destruct (IsCoinbase tx).
Qed.

(** ** Construction of a spend *)

Lemma int_sub_exact (a b : Z) : - 2 ^ 63 <= a - b < 2 ^ 63 -> int_sub a b = a - b.
Proof.
  intros H. unfold int_sub, wrap64. rewrite Z.mod_small; lia.
Qed.

Section Spend.
Context {L : Lib} {C : Collab}.

Lemma append_inputs (txID : bytes) (key : slice) (outs : list Z) (inputs : list TXInput) :
  fold_left (fun inputs out => inputs ++ [TXInput.mk (Some txID) out None key]) outs inputs
  = inputs ++ map (fun out => TXInput.mk (Some txID) out None key) outs.
Proof.
  revert inputs. induction outs as [|out outs IH]; intros inputs; simpl.
  - by rewrite app_nil_r.
  - rewrite IH. by rewrite <- app_assoc.
Qed.

Lemma build_inputs_spec (wallet : Wallet) (entries : list (string * list Z))
    (inputs : list TXInput) :
  build_inputs wallet entries inputs
  = if forallb (fun entry => bool_decide (is_Some (hex_DecodeString entry.1))) entries
    then Returns (inputs ++ flat_map (inputs_of wallet) entries)
    else Panics (LogPanicErr ErrHex).
Proof.
  revert inputs. induction entries as [|[txid outs] rest IH]; intros inputs.
  - simpl. by rewrite app_nil_r.
  - cbn [build_inputs forallb flat_map fst]. unfold inputs_of at 1. cbn [fst snd].
    destruct (hex_DecodeString txid) as [txID|] eqn:E.
    + rewrite bool_decide_eq_true_2 by eauto. cbn [andb].
      rewrite IH, append_inputs.
      destruct (forallb _ rest); [|reflexivity]. by rewrite <- app_assoc.
    + rewrite bool_decide_eq_false_2 by (intros [? ?]; discriminate). reflexivity.
Qed.

Lemma NewUTXOTransaction_unfold (wallet : Wallet) (to : string) (amount : Z) (U : UTXOSet)
    (now : Z) (g : Entropy) :
  let sel := FindSpendableOutputs U (HashPubKey (Wallet.PublicKey wallet)) amount in
  NewUTXOTransaction wallet to amount U now g
  = if sel.1 <? amount then Panics (LogPanic "ERROR: Not enough funds")
    else if forallb (fun entry => bool_decide (is_Some (hex_DecodeString entry.1)))
              (map_range sel.2)
    then SignTransaction U (draft wallet to amount sel.1 (map_range sel.2) now)
           (Wallet.PrivateKey wallet) g
    else Panics (LogPanicErr ErrHex).
Proof.
  intros sel. unfold NewUTXOTransaction. fold sel. destruct sel as [acc validOutputs].
  cbn [fst snd]. destruct (acc <? amount); [reflexivity|].
  rewrite build_inputs_spec. destruct (forallb _ _); [|reflexivity].
  cbn [mbind outcome_bind app]. unfold draft.
  rewrite Z.gtb_ltb. by destruct (amount <? acc).
Qed.

(** C5. When the selector reports less than the amount,
    [NewUTXOTransaction] panics with the message of insufficient funds,
    whatever the signer and the chain would do. Otherwise a record it
    returns has one input for each selected output, in the order the
    selection is visited, with the decoded id, the index and the raw public
    key of the wallet; its first output pays the amount to the recipient;
    and a second output pays the difference back to the sender exactly
    when the selector reported more than the amount. The difference is the
    machine subtraction, which is the exact one within the range of
    [int]. *)
Theorem NewUTXOTransaction_funds (wallet : Wallet) (to : string) (amount : Z)
    (U : UTXOSet) (now : Z) (g : Entropy) :
  let sel := FindSpendableOutputs U (HashPubKey (Wallet.PublicKey wallet)) amount in
  let from := string_of_list_byte (Wallet_GetAddress wallet) in
  (sel.1 < amount ->
   NewUTXOTransaction wallet to amount U now g = Panics (LogPanic "ERROR: Not enough funds"))
  /\ (amount <= sel.1 ->
      forall tx g',
        NewUTXOTransaction wallet to amount U now g = Returns (tx, g') ->
        map unsigned (Vin tx)
        = flat_map
            (fun entry =>
               map (fun out => (hex_DecodeString entry.1, out, Wallet.PublicKey wallet))
                 entry.2)
            (map_range sel.2)
        /\ map_range sel.2 ≡ₚ map_to_list sel.2
        /\ Vout tx
           = mkTXOutput amount (Lock to)
               :: (if amount <? sel.1
                   then [mkTXOutput (int_sub sel.1 amount) (Lock from)]
                   else [])
        /\ (- 2 ^ 63 <= sel.1 - amount < 2 ^ 63 -> int_sub sel.1 amount = sel.1 - amount)).
Proof.
  intros sel from. rewrite NewUTXOTransaction_unfold. fold sel. split.
  - intros Hlt. apply Z.ltb_lt in Hlt. by rewrite Hlt.
  - intros Hge tx g' H.
    destruct (Z.ltb_spec sel.1 amount); [lia|].
    destruct (forallb _ _); [|discriminate].
    unfold SignTransaction in H.
    destruct (FindPrevTXs U _) as [prevTXs|]; cbn [mbind outcome_bind] in H; [|discriminate].
    apply Sign_frame in H as (_ & Hout & _ & Hin & _).
    split; [|split; [apply map_range_perm|split; [exact Hout|apply int_sub_exact]]].
    rewrite Hin. cbn [draft Vin set_size set_ID].
    generalize (map_range sel.2). intros entries.
    induction entries as [|[txid outs] rest IH]; [reflexivity|].
    cbn [flat_map]. rewrite map_app, IH. f_equal.
    unfold inputs_of. rewrite map_map. reflexivity.
Qed.

End Spend.

(** The scenario of the funds check: one unspent output of value 100.
    Spending 150 panics for want of funds; spending 60 returns a record
    with the outputs 60 to the recipient and 40 back to the sender, and
    the record verifies. *)
Example spend_150_of_100 :
  NewUTXOTransaction (L := refLib) (C := refCollab) Ex.wallet Ex.recipient 150 Ex.utxo
    1600000000 [1]
  = Panics (LogPanic "ERROR: Not enough funds").
Proof. vm_compute. reflexivity. Qed.

Example spend_60_of_100 :
  exists tx g',
    NewUTXOTransaction (L := refLib) (C := refCollab) Ex.wallet Ex.recipient 60 Ex.utxo
      1600000000 [1]
    = Returns (tx, g')
    /\ map unsigned (Vin tx) = [(Some Ex.prevID, 0, Ex.pubKey)]
    /\ Vout tx = [mkTXOutput 60 Ex.recipientHash; mkTXOutput 40 Ex.ownerHash]
    /\ exists tx', Verify (L := refLib) tx Ex.prevTXs = Returns (true, tx').
Proof.
  eexists _, _. split; [vm_compute; reflexivity|].
  split; [vm_compute; reflexivity|]. split; [vm_compute; reflexivity|].
  eexists. vm_compute. reflexivity.
Qed.

(** The two requests of the scenario, through the theorem. *)
Lemma NewUTXOTransaction_funds_witness :
  NewUTXOTransaction (L := refLib) (C := refCollab) Ex.wallet Ex.recipient 150 Ex.utxo
    1600000000 [1]
  = Panics (LogPanic "ERROR: Not enough funds")
  /\ exists tx g',
       NewUTXOTransaction (L := refLib) (C := refCollab) Ex.wallet Ex.recipient 60 Ex.utxo
         1600000000 [1]
       = Returns (tx, g')
       /\ Vout tx = [mkTXOutput 60 (Lock (Collab := refCollab) Ex.recipient);
                     mkTXOutput (int_sub 100 60)
                       (Lock (Collab := refCollab)
                          (string_of_list_byte
                             (Wallet_GetAddress (Collab := refCollab) Ex.wallet)))].
Proof.
  split.
  - apply (NewUTXOTransaction_funds (L := refLib) (C := refCollab) Ex.wallet Ex.recipient
             150 Ex.utxo 1600000000 [1]).
    vm_compute. reflexivity.
  - eexists _, _. split; [vm_compute; reflexivity|].
    destruct (NewUTXOTransaction_funds (L := refLib) (C := refCollab) Ex.wallet Ex.recipient
                60 Ex.utxo 1600000000 [1]) as [_ H].
    lazymatch type of H with
    | ?P -> _ => assert (HP : P) by (vm_compute; discriminate); specialize (H HP)
    end.
    edestruct H as (_ & _ & Hout & _); [vm_compute; reflexivity|].
    exact Hout.
Defined.

(** ** Signing, then verifying *)

Section RoundTrip.
Context {L : Lib}.

Lemma signed_by_reference (privKey : ecdsa.PrivateKey) (prevTXs : gmap string Transaction)
    (txCopy : Transaction) (inID : nat) (vin vin' : TXInput) :
  reference vin = reference vin' ->
  TXInput.Signature vin = TXInput.Signature vin' ->
  signed_by privKey prevTXs txCopy inID vin -> signed_by privKey prevTXs txCopy inID vin'.
Proof.
  unfold reference, signed_by, prevOf. destruct vin, vin'. cbn.
  intros Hu Hs (out & g0 & g1 & r & s & Hi & Hsig & Hb).
  inversion Hu; subst. exists out, g0, g1, r, s. auto.
Qed.

Lemma sign_loop_signed_by (privKey : ecdsa.PrivateKey) (prevTXs : gmap string Transaction)
    (id : slice) (l : list TXInput) (outs : list TXOutput) (ts : Z)
    (sz : option StorageSize) (vins : list TXInput) :
  let txCopy := mkTransaction id (map trimmed l) outs ts sz in
  forall (inID : nat) (tx tx' : Transaction) (g g' : Entropy),
    (forall k vin, (k < inID)%nat -> Vin tx !! k = Some vin ->
                   signed_by privKey prevTXs txCopy k vin) ->
    (forall k vin, vins !! k = Some vin ->
                   reference <$> Vin tx !! (inID + k)%nat = Some (reference vin)) ->
    length (Vin tx) = (inID + length vins)%nat ->
    sign_loop privKey prevTXs inID vins tx txCopy g = Returns (tx', g') ->
    forall k vin, Vin tx' !! k = Some vin -> signed_by privKey prevTXs txCopy k vin.
Proof.
  intros txCopy. induction vins as [|vin rest IH];
    intros inID tx tx' g g' Hdone Htodo Hlen H; cbn [sign_loop] in H.
  - inversion H; subst tx' g'. intros k v Hk. apply Hdone; [|exact Hk].
    apply lookup_lt_Some in Hk. simpl in Hlen. lia.
  - fold (prevOf prevTXs vin) in H.
    assert (Hsig : alter_Vin (TXInput.set_Signature None) inID txCopy = txCopy).
    { unfold alter_Vin, txCopy, set_Vin. simpl. by rewrite alter_trimmed. }
    rewrite Hsig in H.
    destruct (index _ _) as [out|] eqn:Hout; cbn [mbind outcome_bind] in H; [|discriminate].
    destruct (ecdsa_Sign _ _ _) as [[err|[r s]] g1] eqn:Hsign; [discriminate|].
    assert (Hkey : alter_Vin (TXInput.set_PubKey None) inID
                     (alter_Vin (TXInput.set_PubKey (PubKeyHash out)) inID txCopy) = txCopy).
    { unfold alter_Vin, txCopy, set_Vin. simpl. by rewrite alter_alter_trimmed. }
    rewrite Hkey in H.
    eapply IH; [| | |exact H].
    + intros k v Hk Hv. unfold alter_Vin in Hv. cbn [Vin set_Vin] in Hv.
      rewrite list_lookup_alter in Hv. case_decide as Hd.
      * subst k. destruct (Vin tx !! inID) as [x|] eqn:Ex; [|discriminate].
        simpl in Hv. inversion Hv; subst v.
        specialize (Htodo 0%nat vin eq_refl). rewrite Nat.add_0_r, Ex in Htodo.
        simpl in Htodo. inversion Htodo as [Hu].
        apply (signed_by_reference _ _ _ _
                 (TXInput.set_Signature (Some (concatComponents r s)) vin)).
        -- unfold reference in *. simpl. congruence.
        -- reflexivity.
        -- exists out, g, g1, r, s. simpl. auto.
      * apply Hdone; [lia|exact Hv].
    + intros k v Hk. unfold alter_Vin. cbn [Vin set_Vin].
      rewrite list_lookup_alter. case_decide; [lia|].
      replace (S inID + k)%nat with (inID + S k)%nat by lia. by apply Htodo.
    + unfold alter_Vin. cbn [Vin set_Vin]. rewrite length_alter. simpl in Hlen. lia.
Qed.

Lemma signedData_ext (a b : Transaction) (inID : nat) (out : TXOutput) :
  ID a = ID b -> Vin a = Vin b -> Vout a = Vout b -> Timestamp a = Timestamp b ->
  signedData a inID out = signedData b inID out.
Proof.
  destruct a, b. cbn. intros -> -> -> ->. reflexivity.
Qed.

Lemma trimmed_unsigned (l l' : list TXInput) :
  map unsigned l = map unsigned l' -> map trimmed l = map trimmed l'.
Proof.
  revert l'. induction l as [|x l IH]; intros [|x' l'] H; try discriminate; [reflexivity|].
  simpl in H. inversion H as [[Ht Hv Hk Hl]]. simpl. f_equal; [|by apply IH].
  unfold trimmed. by rewrite Ht, Hv.
Qed.

Lemma forallb_unsigned (f : TXInput -> bool) (l l' : list TXInput) :
  (forall x x', reference x = reference x' -> f x = f x') ->
  map unsigned l = map unsigned l' -> forallb f l = forallb f l'.
Proof.
  intros Hf. revert l'. induction l as [|x l IH]; intros [|x' l'] H; try discriminate;
    [reflexivity|].
  simpl in H. inversion H as [[Ht Hv Hk Hl]]. simpl.
  rewrite (Hf x x') by (unfold reference; congruence). f_equal. by apply IH.
Qed.

Lemma IsCoinbase_unsigned (tx tx' : Transaction) :
  map unsigned (Vin tx') = map unsigned (Vin tx) -> IsCoinbase tx' = IsCoinbase tx.
Proof.
  unfold IsCoinbase. intros H.
  assert (Hlen : length (Vin tx') = length (Vin tx))
    by (rewrite <- (length_map unsigned), H; apply length_map).
  rewrite Hlen. destruct (Vin tx') as [|x l], (Vin tx) as [|x' l']; try discriminate;
    [reflexivity|].
  simpl in H. inversion H as [[Ht Hv Hk Hl]]. by rewrite Ht, Hv.
Qed.

(** Signing, then verifying. Let [Sign] return on a record that is no
    coinbase, with a private key whose signatures [ecdsa.Verify] accepts
    under its public key on [crypto.S256()]; let every input carry that
    public key, and let the split give back the components of every
    stored signature. Then [Verify] returns true on the signed record. *)
Lemma Sign_Verify_round_trip (tx tx' : Transaction) (privKey : ecdsa.PrivateKey)
    (prevTXs : gmap string Transaction) (g g' : Entropy) :
  IsCoinbase tx = false ->
  Sign tx privKey prevTXs g = Returns (tx', g') ->
  (forall g0 msg r s g1,
     ecdsa_Sign g0 privKey msg = (inr (r, s), g1) ->
     ecdsa_Verify (ecdsa.Public privKey) msg r s = true) ->
  ecdsa.Curve (ecdsa.Public privKey) = crypto_S256 ->
  Forall (fun vin => splitHalves (TXInput.PubKey vin)
                     = (ecdsa.X (ecdsa.Public privKey), ecdsa.Y (ecdsa.Public privKey)))
    (Vin tx) ->
  (forall k vin, Vin tx' !! k = Some vin ->
                 recovers privKey prevTXs (fst (TrimmedCopy tx)) k vin) ->
  Verify tx' prevTXs = Returns (true, snd (TrimmedCopy tx')).
Proof.
  intros Hcb HS Hecdsa Hcurve Hkey Hsplit.
  assert (Hres : forallb (resolves prevTXs) (Vin tx) = true).
  { destruct (forallb (resolves prevTXs) (Vin tx)) eqn:E; [reflexivity|].
    rewrite Sign_unresolved in HS by assumption. discriminate. }
  pose proof HS as HF. apply Sign_frame in HF as (Hid & Hout & Hts & Hin & _).
  rewrite Sign_resolved in HS by assumption.
  pose proof (sign_loop_outcome privKey prevTXs (map trimmed (Vin tx)) 0%nat
                (snd (TrimmedCopy tx)) (fst (TrimmedCopy tx)) g) as Hrange.
  rewrite HS, in_range_trimmed in Hrange.
  assert (Hby : forall k vin, Vin tx' !! k = Some vin ->
                  signed_by privKey prevTXs (fst (TrimmedCopy tx)) k vin).
  { eapply (sign_loop_signed_by privKey prevTXs (ID tx) (Vin tx)); [| | |exact HS].
    - intros k vin Hk. lia.
    - intros k vin Hk. cbn [TrimmedCopy snd SetSize set_size Vin].
      rewrite list_lookup_fmap in Hk. simpl.
      destruct (Vin tx !! k); [|discriminate]. simpl in *. by inversion Hk.
    - cbn [TrimmedCopy snd SetSize set_size Vin]. by rewrite length_map. }
  assert (Hcb' : IsCoinbase tx' = false) by (by rewrite (IsCoinbase_unsigned tx tx')).
  assert (Hres' : forallb (resolves prevTXs) (Vin tx') = true).
  { rewrite (forallb_unsigned _ _ (Vin tx)); [exact Hres| |exact Hin].
    intros x x' Hx. unfold resolves, prevOf. unfold reference in Hx.
    inversion Hx as [[Ht Hv]]. by rewrite Ht. }
  assert (Hrange' : forallb (in_range prevTXs) (Vin tx') = true).
  { rewrite (forallb_unsigned _ _ (Vin tx)); [exact Hrange| |exact Hin].
    intros x x' Hx. unfold in_range, prevOf. unfold reference in Hx.
    inversion Hx as [[Ht Hv]]. by rewrite Ht, Hv. }
  rewrite Verify_checks by assumption.
  destruct (checks_in_range prevTXs (fst (TrimmedCopy tx')) (Vin tx') Hrange' 0%nat)
    as (ok & Hchk & Hiff).
  rewrite Hchk. cbn [mbind outcome_bind]. f_equal. f_equal.
  apply Hiff. intros k vin out Hk Hi. cbn [Nat.add].
  destruct (Hby k vin Hk) as (out' & g0 & g1 & r & s & Hi' & Hsign & Hsig).
  rewrite Hi in Hi'. inversion Hi'; subst out'.
  unfold signature_ok.
  rewrite (Hsplit k vin Hk out g0 g1 r s Hi Hsign Hsig).
  assert (Hpk : splitHalves (TXInput.PubKey vin)
                = (ecdsa.X (ecdsa.Public privKey), ecdsa.Y (ecdsa.Public privKey))).
  { assert (Hu : unsigned <$> Vin tx !! k = Some (unsigned vin)).
    { rewrite <- list_lookup_fmap. change (fmap unsigned (Vin tx)) with (map unsigned (Vin tx)).
      rewrite <- Hin. change (map unsigned (Vin tx')) with (fmap unsigned (Vin tx')).
      by rewrite list_lookup_fmap, Hk. }
    destruct (Vin tx !! k) as [x|] eqn:Ex; [|discriminate].
    simpl in Hu. inversion Hu as [[Ht Hv Hkk]].
    rewrite Forall_forall in Hkey. apply Hkey.
    eapply list_elem_of_lookup_2. exact Ex. }
  rewrite Hpk.
  rewrite (signedData_ext _ (fst (TrimmedCopy tx))).
  - rewrite <- Hcurve. destruct (ecdsa.Public privKey). simpl.
    eapply Hecdsa. exact Hsign.
  - exact Hid.
  - cbn [TrimmedCopy fst Vin]. by apply trimmed_unsigned.
  - cbn [TrimmedCopy fst Vout]. by rewrite Hout.
  - exact Hts.
Qed.

End RoundTrip.

(** * Further properties of transaction.go *)

(** ** The bytes that are signed *)

Lemma strings_Join_cons (s : string) (l : list string) (sep : string) :
  l <> [] -> strings_Join (s :: l) sep = s +:+ sep +:+ strings_Join l sep.
Proof. destruct l; [contradiction|reflexivity]. Qed.

Lemma Transaction_String_head (tx : Transaction) :
  exists rest, Transaction_String tx = "--- Transaction " +:+ rest.
Proof.
  unfold Transaction_String. cbn [app].
  rewrite strings_Join_cons.
  - eexists. cbn [String.append]. reflexivity.
  - intros H. apply (f_equal (@length string)) in H.
    rewrite !length_app in H. simpl in H. lia.
Qed.

Lemma Sprintf_x_nl_head (tx : Transaction) :
  take 32 (bytes_of_string (Sprintf_x_nl tx))
  = bytes_of_string "2d2d2d205472616e73616374696f6e20".
Proof.
  unfold Sprintf_x_nl. destruct (Transaction_String_head tx) as [rest ->]. reflexivity.
Qed.

(** X1. The text of [String] starts with the same sixteen characters for
    every record, so its rendering with [%x], which [Sign] and [Verify]
    hand to the library as the hash, starts with the same 32 bytes for
    every record, every input and every spent output. *)
Theorem signed_bytes_share_prefix (txCopy txCopy' : Transaction) (inID inID' : nat)
    (out out' : TXOutput) :
  take 32 (signedData txCopy inID out)
  = bytes_of_string "2d2d2d205472616e73616374696f6e20"
  /\ take 32 (signedData txCopy inID out) = take 32 (signedData txCopy' inID' out').
Proof.
  unfold signedData. by rewrite !Sprintf_x_nl_head.
Qed.

Section Content.
Context {L : Lib}.

Lemma checks_ext (prevTXs : gmap string Transaction) (c1 c2 : Transaction)
    (vins : list TXInput) :
  (forall k vin out, signature_ok c1 k vin out = signature_ok c2 k vin out) ->
  forall inID, checks prevTXs c1 inID vins = checks prevTXs c2 inID vins.
Proof.
  intros H. induction vins as [|vin rest IH]; intros inID; [reflexivity|].
  cbn [checks]. destruct (index _ _) as [out|]; cbn [mbind outcome_bind]; [|reflexivity].
  rewrite H. destruct (signature_ok c2 inID vin out); [apply IH|reflexivity].
Qed.

Lemma Verify_unfold (tx : Transaction) (prevTXs : gmap string Transaction) :
  Verify tx prevTXs
  = if IsCoinbase tx then Returns (true, tx)
    else if forallb (resolves prevTXs) (Vin tx)
    then ok ← checks prevTXs (fst (TrimmedCopy tx)) 0 (Vin tx);
         Returns (ok, snd (TrimmedCopy tx))
    else Panics (LogPanic missingPrevious).
Proof.
  destruct (IsCoinbase tx) eqn:Hcb; [unfold Verify; by rewrite Hcb|].
  destruct (forallb (resolves prevTXs) (Vin tx)) eqn:Hres.
  - by apply Verify_checks.
  - by apply Verify_unresolved.
Qed.

(** X2. Let [ecdsa.Verify] on [crypto.S256()] read no more than the first
    32 bytes of the hash it is given. Then the result of [Verify] depends
    on the inputs of the record alone: a record with the same inputs and
    any other id, outputs and timestamp gets the same result. *)
Theorem Verify_reads_inputs_only (tx1 tx2 : Transaction)
    (prevTXs : gmap string Transaction) :
  (forall pub m1 m2 r s,
     ecdsa.Curve pub = crypto_S256 -> take 32 m1 = take 32 m2 ->
     ecdsa_Verify pub m1 r s = ecdsa_Verify pub m2 r s) ->
  Vin tx1 = Vin tx2 ->
  fst <$> Verify tx1 prevTXs = fst <$> Verify tx2 prevTXs.
Proof.
  intros Htrunc Hin. rewrite !Verify_unfold.
  assert (Hcb : IsCoinbase tx1 = IsCoinbase tx2) by (unfold IsCoinbase; by rewrite Hin).
  rewrite Hcb, Hin. destruct (IsCoinbase tx2); [reflexivity|].
  destruct (forallb _ _); [|reflexivity].
  rewrite (checks_ext prevTXs (fst (TrimmedCopy tx1)) (fst (TrimmedCopy tx2))).
  - by destruct (checks _ _ _ _).
  - intros k vin out. unfold signature_ok.
    destruct (splitHalves (TXInput.Signature vin)) as [r s].
    destruct (splitHalves (TXInput.PubKey vin)) as [x y].
    apply Htrunc; [reflexivity|]. unfold signedData. by rewrite !Sprintf_x_nl_head.
Qed.

End Content.

(** The reference verifier reads the first 32 bytes of the hash. *)
Lemma Ref_verify_truncates (pub : ecdsa.PublicKey) (m1 m2 : bytes) (r s : Z) :
  ecdsa.Curve pub = crypto_S256 -> take 32 m1 = take 32 m2 ->
  Ref.verify pub m1 r s = Ref.verify pub m2 r s.
Proof.
  intros Hc Ht. unfold Ref.verify. rewrite Hc.
  assert (He : Ref.hashToInt crypto_S256 m1 = Ref.hashToInt crypto_S256 m2).
  { unfold Ref.hashToInt.
    change (Z.to_nat ((Z.log2 (curve_N crypto_S256) + 1 + 7) / 8)) with 32%nat.
    by rewrite Ht. }
  by rewrite He.
Qed.

(** With the reference verifier, the signed record and the record with
    the replaced outputs both verify. *)
Lemma Verify_reads_inputs_only_witness :
  fst <$> Verify (L := refLib) Ex2.signedSpend Ex.prevTXs = Returns true
  /\ fst <$> Verify (L := refLib) Ex2.tampered Ex.prevTXs = Returns true.
Proof.
  assert (H1 : fst <$> Verify (L := refLib) Ex2.signedSpend Ex.prevTXs = Returns true)
    by (vm_compute; reflexivity).
  split; [exact H1|]. rewrite <- H1. symmetry.
  apply (Verify_reads_inputs_only (L := refLib) Ex2.signedSpend Ex2.tampered Ex.prevTXs).
  - exact Ref_verify_truncates.
  - reflexivity.
Defined.

(** ** The trimmed copy *)

Lemma map_TXOutput_eta (l : list TXOutput) :
  map (fun vout => mkTXOutput (Value vout) (PubKeyHash vout)) l = l.
Proof. induction l as [|[v h] l IH]; [reflexivity|]. simpl. by rewrite IH. Qed.

Section Trimmed.
Context {L : Lib}.

Lemma TrimmedCopy_copy (tx : Transaction) :
  fst (TrimmedCopy tx)
  = mkTransaction (ID tx) (map trimmed (Vin tx)) (Vout tx) (Timestamp tx) (size tx).
Proof. unfold TrimmedCopy. cbn [fst]. by rewrite map_TXOutput_eta. Qed.

Lemma map_trimmed_reference (l l' : list TXInput) :
  map reference l = map reference l' -> map trimmed l = map trimmed l'.
Proof.
  revert l'. induction l as [|x l IH]; intros [|x' l'] H; try discriminate; [reflexivity|].
  simpl in H. inversion H as [[Ht Hv Hl]]. simpl. f_equal; [|by apply IH].
  unfold trimmed. by rewrite Ht, Hv.
Qed.

(** X3. The copy that [TrimmedCopy] returns: no input holds a signature
    or a key, the references of the inputs and the id, outputs and
    timestamp are those of the record; it is its own trimmed copy, and
    records that differ in signatures and keys only have the same copy.
    The receiver is changed in its size cell alone. *)
Theorem TrimmedCopy_invariants (tx : Transaction) :
  let txCopy := fst (TrimmedCopy tx) in
  Forall (fun vin => TXInput.Signature vin = None /\ TXInput.PubKey vin = None) (Vin txCopy)
  /\ map reference (Vin txCopy) = map reference (Vin tx)
  /\ ID txCopy = ID tx /\ Vout txCopy = Vout tx /\ Timestamp txCopy = Timestamp tx
  /\ fst (TrimmedCopy txCopy) = txCopy
  /\ (forall tx2,
        map reference (Vin tx2) = map reference (Vin tx) ->
        ID tx2 = ID tx -> Vout tx2 = Vout tx -> Timestamp tx2 = Timestamp tx ->
        size tx2 = size tx ->
        fst (TrimmedCopy tx2) = txCopy)
  /\ snd (TrimmedCopy tx) = set_size (Some (N.of_nat (length (Serialize tx)))) tx.
Proof.
  intros txCopy. unfold txCopy. rewrite !TrimmedCopy_copy. cbn [ID Vin Vout Timestamp size].
  split; [|split; [|split; [|split; [|split; [|split; [|split]]]]]]; try reflexivity.
  - induction (Vin tx) as [|x l IH]; constructor; [by split|exact IH].
  - induction (Vin tx) as [|x l IH]; [reflexivity|]. simpl. by rewrite IH.
  - f_equal. induction (Vin tx) as [|x l IH]; [reflexivity|]. simpl. by rewrite IH.
  - intros tx2 Hin Hid Hout Hts Hsz. rewrite TrimmedCopy_copy.
    by rewrite Hid, Hout, Hts, Hsz, (map_trimmed_reference _ _ Hin).
Qed.

End Trimmed.

(** ** What [Verify] leaves unchanged, and verifying again *)

Section Again.
Context {L : Lib}.

Lemma signature_ok_ext (a b : Transaction) (inID : nat) (vin : TXInput) (out : TXOutput) :
  ID a = ID b -> Vin a = Vin b -> Vout a = Vout b -> Timestamp a = Timestamp b ->
  signature_ok a inID vin out = signature_ok b inID vin out.
Proof.
  intros Hid Hin Hout Hts. unfold signature_ok.
  by rewrite (signedData_ext a b inID out Hid Hin Hout Hts).
Qed.

(** A record that is no coinbase is verified the same whatever its size
    cell holds, and the cell is overwritten. *)
Lemma Verify_set_size (c : option StorageSize) (tx : Transaction)
    (prevTXs : gmap string Transaction) :
  IsCoinbase tx = false -> Verify (set_size c tx) prevTXs = Verify tx prevTXs.
Proof.
  intros Hcb. rewrite !Verify_unfold.
  change (IsCoinbase (set_size c tx)) with (IsCoinbase tx). rewrite Hcb.
  cbn [set_size Vin]. destruct (forallb _ _); [|reflexivity].
  rewrite (checks_ext prevTXs (fst (TrimmedCopy (set_size c tx))) (fst (TrimmedCopy tx))).
  - reflexivity.
  - intros k vin out. by apply signature_ok_ext.
Qed.

(** X4. When [Verify] returns, the record it leaves has the id, inputs,
    outputs and timestamp of the record it was given, and verifying the
    record again gives the same result and changes nothing more. *)
Theorem Verify_again (tx tx' : Transaction) (prevTXs : gmap string Transaction)
    (ok : bool) :
  Verify tx prevTXs = Returns (ok, tx') ->
  ID tx' = ID tx /\ Vin tx' = Vin tx /\ Vout tx' = Vout tx /\ Timestamp tx' = Timestamp tx
  /\ Verify tx' prevTXs = Returns (ok, tx').
Proof.
  intros H. pose proof (Verify_record _ _ _ _ H) as Hrec.
  destruct (IsCoinbase tx) eqn:Hcb.
  - subst tx'. by repeat split.
  - rewrite TrimmedCopy_receiver in Hrec. subst tx'. repeat split.
    rewrite Verify_set_size by exact Hcb. rewrite H. reflexivity.
Qed.

(** X5. A record without inputs is no coinbase and has nothing to check:
    [Verify] returns true whatever the map of prior transactions holds,
    [Sign] returns without asking for a signature, and the self-transfer
    check passes. *)
Theorem no_inputs_nothing_checked (tx : Transaction) (privKey : ecdsa.PrivateKey)
    (prevTXs : gmap string Transaction) (g : Entropy) :
  Vin tx = [] ->
  IsCoinbase tx = false
  /\ Verify tx prevTXs = Returns (true, snd (TrimmedCopy tx))
  /\ Sign tx privKey prevTXs g = Returns (snd (TrimmedCopy tx), g)
  /\ VeryfyFromToAddress tx = true.
Proof.
  intros Hin.
  assert (Hcb : IsCoinbase tx = false) by (unfold IsCoinbase; by rewrite Hin).
  split; [exact Hcb|]. split; [|split].
  - rewrite Verify_unfold, Hcb, Hin. reflexivity.
  - rewrite Sign_resolved; [|exact Hcb|by rewrite Hin]. by rewrite Hin.
  - unfold VeryfyFromToAddress. rewrite Hcb, Hin. by destruct (Vout tx).
Qed.

(** X6. A record that [Sign] has returned is one that [Verify] returns a
    result for, true or false: its references resolve and its output
    indices are in range, so [Verify] reaches none of its panics. *)
Theorem Verify_after_Sign_returns (tx tx' : Transaction) (privKey : ecdsa.PrivateKey)
    (prevTXs : gmap string Transaction) (g g' : Entropy) :
  Sign tx privKey prevTXs g = Returns (tx', g') ->
  exists ok, Verify tx' prevTXs
             = Returns (ok, if IsCoinbase tx then tx' else snd (TrimmedCopy tx')).
Proof.
  intros HS. destruct (IsCoinbase tx) eqn:Hcb.
  { unfold Sign in HS. rewrite Hcb in HS. inversion HS; subst tx' g'.
    exists true. unfold Verify. by rewrite Hcb. }
  assert (Hres : forallb (resolves prevTXs) (Vin tx) = true).
  { destruct (forallb (resolves prevTXs) (Vin tx)) eqn:E; [reflexivity|].
    rewrite Sign_unresolved in HS by assumption. discriminate. }
  pose proof HS as HF. apply Sign_frame in HF as (Hid & Hout & Hts & Hin & _).
  rewrite Sign_resolved in HS by assumption.
  pose proof (sign_loop_outcome privKey prevTXs (map trimmed (Vin tx)) 0%nat
                (snd (TrimmedCopy tx)) (fst (TrimmedCopy tx)) g) as Hrange.
  rewrite HS, in_range_trimmed in Hrange.
  assert (Hcb' : IsCoinbase tx' = false) by (by rewrite (IsCoinbase_unsigned tx tx')).
  assert (Hres' : forallb (resolves prevTXs) (Vin tx') = true).
  { rewrite (forallb_unsigned _ _ (Vin tx)); [exact Hres| |exact Hin].
    intros x x' Hx. unfold resolves, prevOf. unfold reference in Hx.
    inversion Hx as [[Ht Hv]]. by rewrite Ht. }
  assert (Hrange' : forallb (in_range prevTXs) (Vin tx') = true).
  { rewrite (forallb_unsigned _ _ (Vin tx)); [exact Hrange| |exact Hin].
    intros x x' Hx. unfold in_range, prevOf. unfold reference in Hx.
    inversion Hx as [[Ht Hv]]. by rewrite Ht, Hv. }
  rewrite Verify_checks by assumption.
  destruct (checks_in_range prevTXs (fst (TrimmedCopy tx')) (Vin tx') Hrange' 0%nat)
    as (ok & Hchk & _).
  exists ok. by rewrite Hchk.
Qed.

End Again.

Lemma Verify_again_witness :
  exists tx',
    Verify (L := refLib) Ex2.signedSpend Ex.prevTXs = Returns (true, tx')
    /\ Vin tx' = Vin Ex2.signedSpend
    /\ Verify (L := refLib) tx' Ex.prevTXs = Returns (true, tx').
Proof.
  eexists. split; [vm_compute; reflexivity|].
  match goal with
  | |- Vin ?t = _ /\ _ =>
      assert (H : Verify (L := refLib) Ex2.signedSpend Ex.prevTXs = Returns (true, t))
        by (vm_compute; reflexivity);
      destruct (Verify_again (L := refLib) _ _ _ _ H) as (_ & Hin & _ & _ & Hag)
  end.
  split; [exact Hin|exact Hag].
Defined.

Lemma no_inputs_nothing_checked_witness :
  Verify (L := refLib) Ex2.noInputs ∅
  = Returns (true, snd (TrimmedCopy (L := refLib) Ex2.noInputs))
  /\ Sign (L := refLib) Ex2.noInputs Ex.priv ∅ []
     = Returns (snd (TrimmedCopy (L := refLib) Ex2.noInputs), []).
Proof.
  destruct (no_inputs_nothing_checked (L := refLib) Ex2.noInputs Ex.priv ∅ [] eq_refl)
    as (_ & HV & HS & _).
  split; [exact HV|exact HS].
Defined.

Lemma Verify_after_Sign_returns_witness :
  exists tx' g' ok,
    Sign (L := refLib) Ex.spend Ex.priv Ex.prevTXs [443] = Returns (tx', g')
    /\ Verify (L := refLib) tx' Ex.prevTXs = Returns (ok, snd (TrimmedCopy (L := refLib) tx')).
Proof.
  eexists _, _.
  match goal with
  | |- exists ok, Sign ?t ?k ?p ?g = Returns (?t', ?g') /\ _ =>
      assert (H : Sign (L := refLib) t k p g = Returns (t', g'))
  end.
  { vm_compute. reflexivity. }
  destruct (Verify_after_Sign_returns (L := refLib) _ _ _ _ _ _ H) as [ok Hok].
  exists ok. split; [exact H|exact Hok].
Defined.

(** ** The records that the constructors return *)

Section Built.
Context {L : Lib} {C : Collab}.

(** X7. [NewCoinbaseTX] panics only when it has to draw the payload and
    the random source fails. The record it returns has the one sentinel
    input carrying the payload (the data given, or the hexadecimal text
    of the 50 random bytes), the one output of the subsidy to the address
    given, the hash of the record as its id, and in its size cell the
    length of its serialization. With a payload given, the random source
    is not read. *)
Theorem NewCoinbaseTX_record (to data : string) (now : Z) (g : Entropy) :
  (forall tx g',
     NewCoinbaseTX to data now g = Returns (tx, g') ->
     ID tx = Hash tx
     /\ size tx = Some (N.of_nat (length (Serialize tx)))
     /\ Vout tx = [mkTXOutput subsidy (Lock to)]
     /\ Timestamp tx = now
     /\ exists payload,
          Vin tx = [TXInput.mk (Some []) (-1) None (Some (bytes_of_string payload))]
          /\ (data <> "" -> payload = data /\ g' = g)
          /\ (data = "" ->
              exists randData,
                rand_Read g 50 = (inr randData, g')
                /\ payload = hex_EncodeToString randData))
  /\ (forall p,
        NewCoinbaseTX to data now g = Panics p <->
        data = "" /\ exists err g1,
          rand_Read g 50 = (inl err, g1) /\ p = LogPanicErr (ErrLib err))
  /\ (data <> "" -> exists tx, NewCoinbaseTX to data now g = Returns (tx, g)).
Proof.
  unfold NewCoinbaseTX. change (Z.to_nat subsidy) with 50%nat.
  destruct (String.eqb_spec data "") as [->|Hne].
  - destruct (rand_Read g 50) as [[err|randData] g1] eqn:Hrand; cbn [mbind outcome_bind].
    + split; [discriminate|]. split; [|congruence].
      intros p. split.
      * intros H. inversion H. split; [reflexivity|]. by exists err, g1.
      * intros (_ & err' & g1' & Heq & ->). by inversion Heq.
    + split; [|split; [|congruence]].
      * intros tx g' H. inversion H; subst tx g'. clear H.
        cbn [SetSize snd set_size set_ID ID Vin Vout Timestamp size].
        split; [reflexivity|]. split; [reflexivity|]. split; [reflexivity|].
        split; [reflexivity|].
        exists (fmt_x (Some randData)). split; [reflexivity|]. split; [congruence|].
        intros _. by exists randData.
      * intros p. split; [discriminate|].
        intros (_ & err' & g1' & Heq & _). discriminate.
  - cbn [mbind outcome_bind]. split; [|split].
    + intros tx g' H. inversion H; subst tx g'. clear H.
      cbn [SetSize snd set_size set_ID ID Vin Vout Timestamp size].
      split; [reflexivity|]. split; [reflexivity|]. split; [reflexivity|].
      split; [reflexivity|].
      exists data. split; [reflexivity|]. split; [by intros _|congruence].
    + intros p. split; [discriminate|]. intros [? _]. congruence.
    + intros _. eexists. reflexivity.
Qed.

Lemma inputs_of_unsigned (wallet : Wallet) (entries : list (string * list Z)) :
  Forall (fun vin => TXInput.Signature vin = None
                     /\ TXInput.PubKey vin = Wallet.PublicKey wallet)
    (flat_map (inputs_of wallet) entries).
Proof.
  induction entries as [|e entries IH]; [constructor|].
  cbn [flat_map]. apply Forall_app. split; [|exact IH].
  unfold inputs_of. induction e.2 as [|o l IHl]; constructor; [by split|exact IHl].
Qed.

Lemma unsigned_cleared (l l' : list TXInput) :
  map unsigned l' = map unsigned l ->
  Forall (fun vin => TXInput.Signature vin = None) l ->
  map (TXInput.set_Signature None) l' = l.
Proof.
  revert l'. induction l as [|x l IH]; intros [|x' l'] H Hn; try discriminate; [reflexivity|].
  simpl in H. inversion H as [[Ht Hv Hk Hl]]. inversion Hn as [|? ? Hx Hrest]; subst.
  simpl. f_equal; [|by apply IH].
  destruct x, x'. cbn in *. unfold TXInput.set_Signature. cbn. congruence.
Qed.

(** X8. The id of a record that [NewUTXOTransaction] returns is the hash
    of the record before it was signed: of the record with the signatures
    of its inputs removed. Every input carries the public key of the
    wallet, and the timestamp is the time of construction. *)
Theorem NewUTXOTransaction_id (wallet : Wallet) (to : string) (amount : Z) (U : UTXOSet)
    (now : Z) (g g' : Entropy) (tx : Transaction) :
  NewUTXOTransaction wallet to amount U now g = Returns (tx, g') ->
  ID tx = Hash (set_Vin (map (TXInput.set_Signature None) (Vin tx)) tx)
  /\ Forall (fun vin => TXInput.PubKey vin = Wallet.PublicKey wallet) (Vin tx)
  /\ Timestamp tx = now.
Proof.
  intros H. rewrite NewUTXOTransaction_unfold in H. cbn zeta in H.
  destruct (_ <? amount); [discriminate|].
  destruct (forallb _ _); [|discriminate].
  unfold SignTransaction in H.
  destruct (FindPrevTXs U _) as [prevTXs|]; cbn [mbind outcome_bind] in H; [|discriminate].
  apply Sign_frame in H as (Hid & Hout & Hts & Hin & _).
  set (entries := map_range _) in *.
  pose proof (inputs_of_unsigned wallet entries) as Hun.
  split; [|split].
  - rewrite (unsigned_cleared (flat_map (inputs_of wallet) entries) (Vin tx)).
    + rewrite Hid. unfold Hash, Serialize, set_ID, set_Vin, draft.
      cbn [ID Vin Vout Timestamp size set_size set_ID]. rewrite Hout, Hts. reflexivity.
    + exact Hin.
    + eapply Forall_impl; [exact Hun|]. by intros vin [? _].
  - assert (Hk : map TXInput.PubKey (Vin tx)
                 = map TXInput.PubKey (flat_map (inputs_of wallet) entries)).
    { change (Vin (draft wallet to amount _ entries now))
        with (flat_map (inputs_of wallet) entries) in Hin.
      revert Hin. generalize (flat_map (inputs_of wallet) entries). 
      induction (Vin tx) as [|x l IH]; intros [|y l'] Hl; try discriminate; [reflexivity|].
      simpl in Hl. inversion Hl as [[Ht Hv Hkey Hrest]]. simpl. f_equal; [exact Hkey|].
      by apply IH. }
    assert (Hall : Forall (fun k => k = Wallet.PublicKey wallet)
                     (map TXInput.PubKey (Vin tx))).
    { rewrite Hk. apply Forall_map. eapply Forall_impl; [exact Hun|]. by intros vin [_ ?]. }
    by apply Forall_map in Hall.
  - exact Hts.
Qed.

End Built.

Lemma NewUTXOTransaction_id_witness :
  exists tx g',
    NewUTXOTransaction (L := refLib) (C := refCollab) Ex.wallet Ex.recipient 60 Ex.utxo
      1600000000 [1]
    = Returns (tx, g')
    /\ ID tx = Hash (L := refLib) (set_Vin (map (TXInput.set_Signature None) (Vin tx)) tx).
Proof.
  eexists _, _.
  match goal with
  | |- ?lhs = Returns (?t, ?g') /\ _ => assert (H : lhs = Returns (t, g'))
  end.
  { vm_compute. reflexivity. }
  split; [exact H|].
  destruct (NewUTXOTransaction_id (L := refLib) (C := refCollab) _ _ _ _ _ _ _ _ H)
    as (Hid & _ & _).
  exact Hid.
Defined.

(** ** Signing again *)

Lemma set_Signature_unsigned (sig : slice) (x y : TXInput) :
  unsigned x = unsigned y -> TXInput.set_Signature sig x = TXInput.set_Signature sig y.
Proof.
  destruct x, y. unfold unsigned, TXInput.set_Signature. cbn. congruence.
Qed.

Section SignAgain.
Context {L : Lib}.

Lemma sign_loop_ext (privKey : ecdsa.PrivateKey) (prevTXs : gmap string Transaction)
    (id : slice) (l : list TXInput) (outs : list TXOutput) (ts : Z)
    (sza szb : option StorageSize) (vins : list TXInput) :
  forall (inID : nat) (txa txb : Transaction) (g : Entropy),
    map unsigned (Vin txa) = map unsigned (Vin txb) ->
    take inID (Vin txa) = take inID (Vin txb) ->
    length (Vin txa) = (inID + length vins)%nat ->
    signed_inputs <$> sign_loop privKey prevTXs inID vins txa
                        (mkTransaction id (map trimmed l) outs ts sza) g
    = signed_inputs <$> sign_loop privKey prevTXs inID vins txb
                          (mkTransaction id (map trimmed l) outs ts szb) g.
Proof.
  induction vins as [|vin rest IH]; intros inID txa txb g Hun Htake Hlen; cbn [sign_loop].
  - cbn. unfold signed_inputs. cbn. f_equal. f_equal.
    assert (Hlb : length (Vin txb) = length (Vin txa)).
    { rewrite <- (length_map unsigned (Vin txb)), <- Hun. apply length_map. }
    rewrite <- (take_ge (Vin txa) inID), <- (take_ge (Vin txb) inID); [exact Htake| |].
    + rewrite Hlb, Hlen. simpl. lia.
    + rewrite Hlen. simpl. lia.
  - assert (Hsig : forall sz, alter_Vin (TXInput.set_Signature None) inID
                                (mkTransaction id (map trimmed l) outs ts sz)
                              = mkTransaction id (map trimmed l) outs ts sz).
    { intros sz. unfold alter_Vin, set_Vin. simpl. by rewrite alter_trimmed. }
    rewrite !Hsig.
    destruct (index _ _) as [out|]; cbn [mbind outcome_bind]; [|reflexivity].
    change (Sprintf_x_nl (alter_Vin (TXInput.set_PubKey (PubKeyHash out)) inID
                            (mkTransaction id (map trimmed l) outs ts szb)))
      with (Sprintf_x_nl (alter_Vin (TXInput.set_PubKey (PubKeyHash out)) inID
                            (mkTransaction id (map trimmed l) outs ts sza))).
    destruct (ecdsa_Sign _ _ _) as [[err|[r s]] g1]; [reflexivity|].
    assert (Hkey : forall sz,
               alter_Vin (TXInput.set_PubKey None) inID
                 (alter_Vin (TXInput.set_PubKey (PubKeyHash out)) inID
                    (mkTransaction id (map trimmed l) outs ts sz))
               = mkTransaction id (map trimmed l) outs ts sz).
    { intros sz. unfold alter_Vin, set_Vin. simpl. by rewrite alter_alter_trimmed. }
    rewrite !Hkey.
    apply IH.
    + unfold alter_Vin. cbn [Vin set_Vin]. by rewrite !map_unsigned_alter.
    + unfold alter_Vin. cbn [Vin set_Vin].
      assert (Hlb : length (Vin txb) = length (Vin txa)).
      { rewrite <- (length_map unsigned (Vin txb)), <- Hun. apply length_map. }
      destruct (lookup_lt_is_Some_2 (Vin txa) inID) as [x Hx]; [simpl in Hlen; lia|].
      destruct (lookup_lt_is_Some_2 (Vin txb) inID) as [y Hy]; [simpl in Hlen; lia|].
      assert (Hxy : unsigned x = unsigned y).
      { assert (Hl : map unsigned (Vin txa) !! inID = map unsigned (Vin txb) !! inID)
          by (by rewrite Hun).
        change (map unsigned (Vin txa)) with (unsigned <$> Vin txa) in Hl.
        change (map unsigned (Vin txb)) with (unsigned <$> Vin txb) in Hl.
        rewrite !list_lookup_fmap, Hx, Hy in Hl. simpl in Hl. congruence. }
      rewrite (take_S_r _ _ (TXInput.set_Signature (Some (concatComponents r s)) x)).
      2:{ rewrite list_lookup_alter. case_decide; [|congruence]. by rewrite Hx. }
      rewrite (take_S_r _ _ (TXInput.set_Signature (Some (concatComponents r s)) y)).
      2:{ rewrite list_lookup_alter. case_decide; [|congruence]. by rewrite Hy. }
      rewrite !take_alter_ge by lia.
      by rewrite Htake, (set_Signature_unsigned _ x y Hxy).
    + unfold alter_Vin. cbn [Vin set_Vin]. rewrite length_alter. simpl in Hlen. lia.
Qed.

(** X9. [Sign] signs from scratch. On a record that is no coinbase the
    signatures that the inputs hold on entry are not read: two records
    that differ in the signatures of their inputs and in the size cell
    only leave [Sign] with the same inputs and the same state of the
    entropy source, or with the same panic. *)
Theorem Sign_ignores_signatures (tx1 tx2 : Transaction) (privKey : ecdsa.PrivateKey)
    (prevTXs : gmap string Transaction) (g : Entropy) :
  IsCoinbase tx1 = false ->
  map unsigned (Vin tx1) = map unsigned (Vin tx2) ->
  ID tx1 = ID tx2 -> Vout tx1 = Vout tx2 -> Timestamp tx1 = Timestamp tx2 ->
  signed_inputs <$> Sign tx1 privKey prevTXs g
  = signed_inputs <$> Sign tx2 privKey prevTXs g.
Proof.
  intros Hcb Hun Hid Hout Hts.
  assert (Hcb2 : IsCoinbase tx2 = false) by (by rewrite (IsCoinbase_unsigned tx1 tx2)).
  assert (Hres : forallb (resolves prevTXs) (Vin tx1) = forallb (resolves prevTXs) (Vin tx2)).
  { apply forallb_unsigned; [|exact Hun].
    intros x x' Hx. unfold resolves, prevOf. unfold reference in Hx.
    inversion Hx as [[Ht Hv]]. by rewrite Ht. }
  destruct (forallb (resolves prevTXs) (Vin tx2)) eqn:Hres2.
  - rewrite !Sign_resolved by assumption.
    rewrite !TrimmedCopy_copy, !TrimmedCopy_receiver.
    rewrite <- Hid, <- Hout, <- Hts, <- (trimmed_unsigned _ _ Hun).
    apply sign_loop_ext.
    + exact Hun.
    + reflexivity.
    + cbn [set_size Vin]. rewrite length_map. lia.
  - by rewrite !Sign_unresolved.
Qed.

End SignAgain.

Lemma Sign_ignores_signatures_witness :
  signed_inputs <$> Sign (L := refLib) Ex2.signedSpend Ex.priv Ex.prevTXs [1]
  = signed_inputs <$> Sign (L := refLib) Ex.spend Ex.priv Ex.prevTXs [1].
Proof.
  apply (Sign_ignores_signatures (L := refLib) Ex2.signedSpend Ex.spend);
    vm_compute; reflexivity.
Defined.

(** ** When the split gives back the components *)

Lemma le_digits_last (fuel : nat) (n : N) :
  n <> 0%N -> (n < 2 ^ N.of_nat fuel)%N ->
  exists l d, le_digits fuel n = l ++ [d] /\ Byte.to_N d <> 0%N.
Proof.
  revert n. induction fuel as [|fuel IH]; intros n Hnz Hn.
  - simpl in Hn. lia.
  - cbn [le_digits]. destruct (N.eqb_spec n 0) as [|_]; [contradiction|].
    destruct (N.eq_dec (n / 256)%N 0%N) as [Hz|Hq].
    + exists [], (byte_of_N (n mod 256)). split.
      * rewrite Hz. by destruct fuel.
      * rewrite byte_of_N_to_N by (apply N.mod_lt; lia).
        pose proof (N.div_mod n 256). lia.
    + destruct (IH (n / 256)%N Hq) as (l & d & Hl & Hd).
      * replace (N.of_nat (S fuel)) with (N.succ (N.of_nat fuel)) in Hn by lia.
        rewrite N.pow_succ_r' in Hn.
        apply N.Div0.div_lt_upper_bound.
        assert (0 < 2 ^ N.of_nat fuel)%N by (apply N.neq_0_lt_0, N.pow_nonzero; lia).
        nia.
      * exists (byte_of_N (n mod 256) :: l), d. split; [|exact Hd].
        by rewrite Hl.
Qed.

(** [Bytes] has no leading zero byte. *)
Lemma big_Bytes_head (x : Z) :
  x <> 0 -> exists d rest, big_Bytes x = d :: rest /\ Byte.to_N d <> 0%N.
Proof.
  intros Hx. unfold big_Bytes.
  destruct (le_digits_last (N.to_nat (N.size (Z.abs_N x))) (Z.abs_N x)) as (l & d & Hl & Hd).
  - lia.
  - rewrite N2Nat.id. apply N.size_gt.
  - exists d, (rev l). split; [|exact Hd]. rewrite Hl, rev_app_distr. reflexivity.
Qed.

Lemma be_value_cons_pos (d : byte) (rest : bytes) :
  Byte.to_N d <> 0%N -> (1 <= be_value (d :: rest))%N.
Proof.
  intros Hd. change (d :: rest) with ([d] ++ rest). rewrite be_value_app.
  change (be_value [d]) with (0 * 256 + Byte.to_N d)%N.
  assert (0 < 256 ^ N.of_nat (length rest))%N by (apply N.neq_0_lt_0, N.pow_nonzero; lia).
  nia.
Qed.

Lemma splitHalves_concat_exceeds (r s : Z) :
  0 <= r ->
  (length (big_Bytes r) + 1 < length (big_Bytes s))%nat ->
  r < fst (splitHalves (Some (concatComponents r s))).
Proof.
  intros Hr Hlen. unfold splitHalves, concatComponents, len. cbn [data default fst].
  unfold id.
  destruct (Z.eq_dec s 0) as [->|Hs]; [simpl in Hlen; lia|].
  destruct (big_Bytes_head s Hs) as (d & rest & HS & Hd).
  rewrite HS in *. rewrite length_app. cbn [length] in *.
  set (lr := length (big_Bytes r)) in *.
  assert (Hhalf : exists k, ((lr + S (length rest)) / 2 = lr + S k)%nat).
  { exists ((lr + S (length rest)) / 2 - lr - 1)%nat.
    assert (lr + 1 <= (lr + S (length rest)) / 2)%nat; [|lia].
    apply Nat.div_le_lower_bound; lia. }
  destruct Hhalf as [k ->].
  rewrite take_app. rewrite take_ge by (fold lr; lia).
  fold lr. replace (lr + S k - lr)%nat with (S k) by lia. cbn [take].
  unfold big_SetBytes. rewrite be_value_app.
  pose proof (be_value_cons_pos d (take k rest) Hd) as Hpos.
  pose proof (big_SetBytes_Bytes r Hr) as Hrr. unfold big_SetBytes in Hrr.
  assert (1 <= 256 ^ N.of_nat (length (d :: take k rest)))%N.
  { assert (0 < 256 ^ N.of_nat (length (d :: take k rest)))%N
      by (apply N.neq_0_lt_0, N.pow_nonzero; lia). lia. }
  nia.
Qed.

(** X10. The signature that [Sign] stores for the components [r] and [s]
    is split by [Verify] into [r] and [s] again exactly when the bytes of
    [s] are as many as those of [r] or one more. *)
Theorem splitHalves_recovers_iff (r s : Z) :
  0 <= r -> 0 <= s ->
  splitHalves (Some (concatComponents r s)) = (r, s)
  <-> (length (big_Bytes r) <= length (big_Bytes s) <= length (big_Bytes r) + 1)%nat.
Proof.
  intros Hr Hs. split.
  - intros H.
    destruct (Nat.lt_ge_cases (length (big_Bytes s)) (length (big_Bytes r))) as [Hlt|Hge].
    + pose proof (splitHalves_concat_loses r s Hr Hlt) as Hl. rewrite H in Hl. simpl in Hl. lia.
    + destruct (Nat.lt_ge_cases (length (big_Bytes r) + 1) (length (big_Bytes s)))
        as [Hgt|Hle]; [|lia].
      pose proof (splitHalves_concat_exceeds r s Hr Hgt) as Hl. rewrite H in Hl.
      simpl in Hl. lia.
  - by apply splitHalves_concat_recovers.
Qed.

Lemma splitHalves_recovers_iff_witness :
  splitHalves (Some (concatComponents 1 256)) = (1, 256)
  /\ splitHalves (Some (concatComponents 256 1)) <> (256, 1)
  /\ splitHalves (Some (concatComponents 1 65536)) <> (1, 65536).
Proof.
  split; [|split].
  - apply (splitHalves_recovers_iff 1 256); simpl; lia.
  - intros H. apply (splitHalves_recovers_iff 256 1) in H; simpl in H; lia.
  - intros H. apply (splitHalves_recovers_iff 1 65536) in H; simpl in H; lia.
Defined.

(** * Properties of wallets.go *)

(** ** The name of the wallet file *)

Lemma strings_Replace_char_idem (old new : ascii) (s : string) :
  old <> new ->
  strings_Replace_char old new (strings_Replace_char old new s)
  = strings_Replace_char old new s.
Proof.
  intros Hne. induction s as [|c s IH]; [reflexivity|].
  cbn [strings_Replace_char]. rewrite IH. f_equal.
  destruct (Ascii.eqb_spec c old) as [->|Hc].
  - destruct (Ascii.eqb_spec new old) as [E|_]; [congruence|reflexivity].
  - destruct (Ascii.eqb_spec c old) as [E|_]; [contradiction|reflexivity].
Qed.

Lemma strings_Replace_char_length (old new : ascii) (s : string) :
  String.length (strings_Replace_char old new s) = String.length s.
Proof. induction s as [|c s IH]; [reflexivity|]. simpl. by rewrite IH. Qed.

Lemma strings_Replace_char_absent (old new : ascii) (s : string) :
  old <> new -> ~ In old (list_ascii_of_string (strings_Replace_char old new s)).
Proof.
  intros Hne. induction s as [|c s IH]; [intros []|].
  cbn [strings_Replace_char list_ascii_of_string]. intros [E|Hin]; [|by apply IH].
  destruct (Ascii.eqb_spec c old) as [->|Hc]; congruence.
Qed.

Lemma strings_Replace_char_app (old new : ascii) (a b : string) :
  strings_Replace_char old new (a +:+ b)
  = strings_Replace_char old new a +:+ strings_Replace_char old new b.
Proof. induction a as [|c a IH]; [reflexivity|]. simpl. by rewrite IH. Qed.

Lemma string_length_app (a b : string) :
  String.length (a +:+ b) = (String.length a + String.length b)%nat.
Proof. induction a as [|c a IH]; [reflexivity|]. simpl. by rewrite IH. Qed.

Lemma string_app_inj_suffix (a b s : string) : a +:+ s = b +:+ s -> a = b.
Proof.
  revert b. induction a as [|c a IH]; intros [|c' b] H.
  - reflexivity.
  - apply (f_equal String.length) in H. rewrite !string_length_app in H. simpl in H. lia.
  - apply (f_equal String.length) in H. rewrite !string_length_app in H. simpl in H. lia.
  - simpl in H. inversion H as [[Hc Hrest]]. f_equal. by apply IH.
Qed.

Lemma genWalletFileName_twice (nodeID : string) :
  genWalletFileName (genWalletFileName nodeID) = genWalletFileName nodeID
  /\ genWalletDbName (genWalletFileName nodeID) = genWalletDbName nodeID.
Proof.
  assert (Hne : ":"%char <> "_"%char) by discriminate.
  split.
  - by apply strings_Replace_char_idem.
  - unfold genWalletDbName, genWalletFileName. by rewrite strings_Replace_char_idem.
Qed.

(** X11. The wallet file of a node: its name is [wallet_], the node id
    with every colon replaced by an underscore, and [.dat]. It holds no
    colon, replacing twice changes nothing, so that [NewWallets], which
    replaces before it calls [LoadFromFile], reads the file that
    [SaveToFile] writes for the same node id; and two node ids have the
    same file exactly when they are equal after the replacement: ids that
    differ in a colon against an underscore share one file. *)
Theorem wallet_file_name (nodeID nodeID' : string) :
  genWalletFileName (genWalletFileName nodeID) = genWalletFileName nodeID
  /\ genWalletDbName (genWalletFileName nodeID) = genWalletDbName nodeID
  /\ String.length (genWalletDbName nodeID) = (String.length nodeID + 11)%nat
  /\ ~ In ":"%char (list_ascii_of_string (genWalletDbName nodeID))
  /\ (genWalletDbName nodeID = genWalletDbName nodeID'
      <-> genWalletFileName nodeID = genWalletFileName nodeID')
  /\ genWalletDbName (nodeID +:+ ":" +:+ nodeID')
     = genWalletDbName (nodeID +:+ "_" +:+ nodeID').
Proof.
  assert (Hne : ":"%char <> "_"%char) by discriminate.
  split; [|split; [|split; [|split; [|split]]]].
  - by apply strings_Replace_char_idem.
  - unfold genWalletDbName, genWalletFileName. by rewrite strings_Replace_char_idem.
  - unfold genWalletDbName, genWalletFileName.
    rewrite !string_length_app, strings_Replace_char_length. simpl. lia.
  - unfold genWalletDbName, genWalletFileName.
    assert (Happ : forall a b, list_ascii_of_string (a +:+ b)
                               = list_ascii_of_string a ++ list_ascii_of_string b).
    { intros a b. induction a as [|c a IH]; [reflexivity|]. simpl. by rewrite IH. }
    rewrite !Happ. rewrite !in_app_iff. intros [H|[H|H]].
    + simpl in H. repeat destruct H as [H|H]; try discriminate; exact H.
    + by apply (strings_Replace_char_absent ":" "_" nodeID).
    + simpl in H. repeat destruct H as [H|H]; try discriminate; exact H.
  - unfold genWalletDbName. split.
    + intros H. apply (String.app_inj "wallet_") in H. by apply string_app_inj_suffix in H.
    + by intros ->.
  - unfold genWalletDbName, genWalletFileName.
    by rewrite !strings_Replace_char_app.
Qed.

(** ** The key bytes *)

Lemma le_digits_length (fuel : nat) (n : N) (k : nat) :
  (n < 256 ^ N.of_nat k)%N -> (length (le_digits fuel n) <= k)%nat.
Proof.
  revert n k. induction fuel as [|fuel IH]; intros n k Hn; [simpl; lia|].
  cbn [le_digits]. destruct (N.eqb_spec n 0) as [|Hnz]; [simpl; lia|].
  destruct k as [|k]; [simpl in Hn; lia|].
  cbn [length]. apply le_n_S. apply IH.
  replace (N.of_nat (S k)) with (N.succ (N.of_nat k)) in Hn by lia.
  rewrite N.pow_succ_r' in Hn.
  apply N.Div0.div_lt_upper_bound. lia.
Qed.

(** The number of bytes of an integer. *)
Lemma big_Bytes_length (x : Z) (k : nat) :
  (length (big_Bytes x) <= k)%nat <-> Z.abs x < 256 ^ Z.of_nat k.
Proof.
  split.
  - intros Hlen.
    pose proof (big_SetBytes_Bytes (Z.abs x) (Z.abs_nonneg x)) as Hrt.
    assert (Habs : big_Bytes (Z.abs x) = big_Bytes x).
    { by destruct x. }
    rewrite Habs in Hrt. unfold big_SetBytes in Hrt.
    pose proof (be_value_bound (big_Bytes x)) as Hb.
    assert (Hmono : (256 ^ N.of_nat (length (big_Bytes x)) <= 256 ^ N.of_nat k)%N)
      by (apply N.pow_le_mono_r; lia).
    assert (Hc : Z.of_N (256 ^ N.of_nat k) = 256 ^ Z.of_nat k).
    { rewrite N2Z.inj_pow. f_equal. lia. }
    lia.
  - intros Hx. unfold big_Bytes. rewrite length_rev. apply le_digits_length.
    assert (Hc : Z.of_N (256 ^ N.of_nat k) = 256 ^ Z.of_nat k).
    { rewrite N2Z.inj_pow. f_equal. lia. }
    lia.
Qed.




(** ** Loading and saving the wallets *)

Section Persist.
Context {F : Files}.

Lemma NewWallets_unfold (nodeID : string) (fs : FS) :
  NewWallets nodeID fs = LoadFromFile ∅ nodeID fs.
Proof.
  unfold NewWallets, LoadFromFile.
  by rewrite (proj2 (genWalletFileName_twice nodeID)).
Qed.

(** X13. [NewWallets] reads the file that [genWalletDbName] names for the
    node id. It returns an error only when [os.Stat] reports that the file
    does not exist, and then the collection is empty; it returns a
    collection without an error only when the file was read and decoded;
    every other failure, of reading or of decoding, is a panic with that
    error. *)
Theorem NewWallets_outcomes (nodeID : string) (fs : FS) :
  let walletFile := genWalletDbName nodeID in
  (forall ws err,
     NewWallets nodeID fs = Returns (ws, Some err) ->
     ws = ∅ /\ exists text,
       err = ErrLib text /\ os_Stat fs walletFile = Some text /\ os_IsNotExist text = true)
  /\ (forall ws,
        NewWallets nodeID fs = Returns (ws, None) ->
        exists content,
          ioutil_ReadFile fs walletFile = inr content
          /\ gob_DecodeWallets content = inr ws)
  /\ (forall p,
        NewWallets nodeID fs = Panics p ->
        exists text,
          p = LogPanicErr (ErrLib text)
          /\ (ioutil_ReadFile fs walletFile = inl text
              \/ exists content,
                   ioutil_ReadFile fs walletFile = inr content
                   /\ gob_DecodeWallets content = inl text))
  /\ (forall text,
        os_Stat fs walletFile = Some text -> os_IsNotExist text = true ->
        NewWallets nodeID fs = Returns (∅, Some (ErrLib text))).
Proof.
  intros walletFile. rewrite NewWallets_unfold. unfold LoadFromFile. fold walletFile.
  destruct (os_Stat fs walletFile) as [text|] eqn:Hstat.
  - destruct (os_IsNotExist text) eqn:Hne.
    + split; [|split; [|split]]; try discriminate.
      * intros ws err H. inversion H; subst. split; [reflexivity|]. by exists text.
      * intros text' Ht Hn. by inversion Ht.
    + destruct (ioutil_ReadFile fs walletFile) as [e|content] eqn:Hread.
      * split; [|split; [|split]]; try discriminate.
        -- intros p H. inversion H. exists e. split; [reflexivity|]. by left.
        -- intros text' Ht Hn. inversion Ht; subst. congruence.
      * destruct (gob_DecodeWallets content) as [e|wallets] eqn:Hdec.
        -- split; [|split; [|split]]; try discriminate.
           ++ intros p H. inversion H. exists e. split; [reflexivity|]. right. by exists content.
           ++ intros text' Ht Hn. inversion Ht; subst. congruence.
        -- split; [|split; [|split]]; try discriminate.
           ++ intros ws H. inversion H; subst. by exists content.
           ++ intros text' Ht Hn. inversion Ht; subst. congruence.
  - destruct (ioutil_ReadFile fs walletFile) as [e|content] eqn:Hread.
    + split; [|split; [|split]]; try discriminate.
      intros p H. inversion H. exists e. split; [reflexivity|]. by left.
    + destruct (gob_DecodeWallets content) as [e|wallets] eqn:Hdec.
      * split; [|split; [|split]]; try discriminate.
        intros p H. inversion H. exists e. split; [reflexivity|]. right. by exists content.
      * split; [|split; [|split]]; try discriminate.
        intros ws H. inversion H; subst. by exists content.
Qed.

(** X14. What [SaveToFile] has written, [NewWallets] reads back. Let the
    file system keep what is written, and let the decoder invert the
    encoder on the collection. Then after [SaveToFile] for a node id,
    [NewWallets] returns the collection, without an error, for that node
    id and for every node id that differs from it in colons against
    underscores only. *)
Theorem SaveToFile_NewWallets (ws : Wallets) (nodeID nodeID' : string) (fs fs' : FS) :
  genWalletFileName nodeID' = genWalletFileName nodeID ->
  SaveToFile ws nodeID fs = Returns fs' ->
  (forall name content fs1,
     ioutil_WriteFile fs name content = (None, fs1) ->
     os_Stat fs1 name = None /\ ioutil_ReadFile fs1 name = inr content) ->
  (forall content, gob_EncodeWallets ws = inr content -> gob_DecodeWallets content = inr ws) ->
  NewWallets nodeID' fs' = Returns (ws, None).
Proof.
  intros Hname Hsave Hfs Hcodec. unfold SaveToFile in Hsave.
  destruct (gob_EncodeWallets ws) as [e|content] eqn:Henc; [discriminate|].
  destruct (ioutil_WriteFile fs (genWalletDbName nodeID) content) as [[e|] fs1] eqn:Hw;
    [discriminate|].
  inversion Hsave; subst fs1.
  destruct (Hfs _ _ _ Hw) as [Hstat Hread].
  rewrite NewWallets_unfold. unfold LoadFromFile.
  assert (Hdb : genWalletDbName nodeID' = genWalletDbName nodeID)
    by (unfold genWalletDbName; by rewrite Hname).
  rewrite Hdb, Hstat, Hread, (Hcodec content eq_refl). reflexivity.
Qed.

(** X15. [GetWallet] pads nothing. Let [crypto.ToECDSA] reject every key
    that is not 32 bytes long. Then [GetWallet] ends in a nil pointer
    dereference for an address that the collection does not hold and for
    every wallet whose private scalar is below [2^248], whose bytes are
    fewer than 32; when it returns, the scalar of the wallet has exactly
    32 bytes, the private key is the one [crypto.ToECDSA] built from them,
    and the public key bytes are those stored. *)
Theorem GetWallet_dereferences (ws : Wallets) (address : string) :
  (forall d, length d <> 32%nat -> exists err, crypto_ToECDSA d = inl err) ->
  (ws !! address = None -> GetWallet ws address = NilPointerDereference)
  /\ (forall wallet,
        ws !! address = Some wallet ->
        Z.abs (ecdsa.D (Wallet.PrivateKey wallet)) < 2 ^ 248 ->
        GetWallet ws address = NilPointerDereference)
  /\ (forall wallet',
        GetWallet ws address = Pointee wallet' ->
        exists wallet,
          ws !! address = Some wallet
          /\ Wallet.PublicKey wallet' = Wallet.PublicKey wallet
          /\ crypto_ToECDSA (big_Bytes (ecdsa.D (Wallet.PrivateKey wallet)))
             = inr (Wallet.PrivateKey wallet')
          /\ 2 ^ 248 <= Z.abs (ecdsa.D (Wallet.PrivateKey wallet)) < 2 ^ 256).
Proof.
  intros Hstrict. unfold GetWallet. split; [|split].
  - by intros ->.
  - intros wallet -> Hd.
    destruct (Hstrict (big_Bytes (ecdsa.D (Wallet.PrivateKey wallet)))) as [err ->];
      [|reflexivity].
    assert (length (big_Bytes (ecdsa.D (Wallet.PrivateKey wallet))) <= 31)%nat; [|lia].
    apply big_Bytes_length. change (256 ^ Z.of_nat 31) with (2 ^ 248). exact Hd.
  - intros wallet' H. destruct (ws !! address) as [wallet|]; [|discriminate].
    destruct (crypto_ToECDSA _) as [err|prv] eqn:Hprv; [discriminate|].
    inversion H; subst wallet'. exists wallet. cbn [Wallet.PublicKey Wallet.PrivateKey].
    split; [reflexivity|]. split; [reflexivity|]. split; [exact Hprv|].
    set (d := ecdsa.D (Wallet.PrivateKey wallet)) in *.
    destruct (Nat.eq_dec (length (big_Bytes d)) 32%nat) as [Hlen|Hlen].
    + pose proof (proj1 (big_Bytes_length d 32%nat)) as Hup.
      pose proof (proj2 (big_Bytes_length d 31%nat)) as Hlo.
      change (256 ^ Z.of_nat 32) with (2 ^ 256) in Hup.
      change (256 ^ Z.of_nat 31) with (2 ^ 248) in Hlo.
      split; [|apply Hup; lia].
      destruct (Z.lt_ge_cases (Z.abs d) (2 ^ 248)) as [Hlt|Hge]; [|exact Hge].
      specialize (Hlo Hlt). lia.
    + destruct (Hstrict _ Hlen) as [err Herr]. congruence.
Qed.

End Persist.

Lemma SaveToFile_NewWallets_witness :
  exists fs',
    SaveToFile (F := refFiles) Ex3.wallets "localhost:3000" Ex3.noFiles = Returns fs'
    /\ NewWallets (F := refFiles) "localhost_3000" fs' = Returns (Ex3.wallets, None).
Proof.
  eexists. split; [reflexivity|].
  apply (SaveToFile_NewWallets (F := refFiles) Ex3.wallets "localhost:3000" "localhost_3000"
           Ex3.noFiles).
  - reflexivity.
  - reflexivity.
  - intros name content fs1 H. inversion H; subst fs1. cbn.
    rewrite lookup_insert_eq. by split.
  - intros content H. vm_compute in H. inversion H; subst content. vm_compute. reflexivity.
Defined.

Lemma GetWallet_dereferences_witness :
  GetWallet (F := refFiles) Ex3.wallets "1NoSuchAddress" = NilPointerDereference
  /\ GetWallet (F := refFiles) Ex3.wallets Ex3.shortAddress = NilPointerDereference.
Proof.
  assert (Hstrict : forall d, length d <> 32%nat ->
                      exists err, crypto_ToECDSA (Files := refFiles) d = inl err).
  { intros d Hd. exists "invalid length, need 256 bits". cbn. unfold ref_ToECDSA.
    destruct (Nat.eqb_spec (8 * length d)%nat 256%nat) as [E|_]; [lia|reflexivity]. }
  destruct (GetWallet_dereferences (F := refFiles) Ex3.wallets "1NoSuchAddress" Hstrict)
    as (Hnone & _ & _).
  destruct (GetWallet_dereferences (F := refFiles) Ex3.wallets Ex3.shortAddress Hstrict)
    as (_ & Hshort & _).
  split.
  - apply Hnone. vm_compute. reflexivity.
  - apply (Hshort Ex.wallet); [vm_compute; reflexivity|]. vm_compute. reflexivity.
Defined.

(** * Admission *)

Section TxChecks.
Context {C : Collab} {A : Admission}.

(** X16. [VerifyTx] returns the conjunction of its checks, made on the
    record as [VerifyTransaction] leaves it. For a coinbase record the
    amount is not checked and the self-transfer check passes, so the
    result is that of [VerifyTransaction]; for any other record the amount
    is checked even when the signatures were found invalid, and the
    self-transfer check passes whenever no input holds a key of the
    length of the owner hash of the first output, so that the result is
    that of the two other checks. [VerifyTx] panics exactly when one of
    the two checks that it calls does. *)
Theorem VerifyTx_checks (tx : Transaction) (bc : UTXOSet) :
  (forall ok tx1,
     VerifyTransaction bc tx = Returns (ok, tx1) -> IsCoinbase tx1 = true ->
     VerifyTx tx bc = Returns ok)
  /\ (forall ok1 tx1 ok2 tx2,
        VerifyTransaction bc tx = Returns (ok1, tx1) -> IsCoinbase tx1 = false ->
        IsUTXOAmountValid bc tx1 = Returns (ok2, tx2) ->
        VerifyTx tx bc = Returns (ok1 && ok2 && VeryfyFromToAddress tx2)
        /\ (forall vout0 rest,
              IsCoinbase tx2 = false -> Vout tx2 = vout0 :: rest ->
              Forall (fun txin => len (TXInput.PubKey txin) <> len (PubKeyHash vout0))
                (Vin tx2) ->
              VerifyTx tx bc = Returns (ok1 && ok2)))
  /\ (forall p,
        VerifyTx tx bc = Panics p <->
        VerifyTransaction bc tx = Panics p
        \/ exists ok tx1,
             VerifyTransaction bc tx = Returns (ok, tx1) /\ IsCoinbase tx1 = false
             /\ IsUTXOAmountValid bc tx1 = Panics p).
Proof.
  unfold VerifyTx. split; [|split].
  - intros ok tx1 -> Hcb. cbn [mbind outcome_bind]. rewrite Hcb. cbn [negb mbind outcome_bind].
    rewrite VeryfyFromToAddress_exempt by (by left). by destruct ok.
  - intros ok1 tx1 ok2 tx2 -> Hcb Ham. cbn [mbind outcome_bind]. rewrite Hcb.
    cbn [negb]. rewrite Ham. cbn [mbind outcome_bind].
    split; [by destruct (ok1 && ok2 && VeryfyFromToAddress tx2)|].
    intros vout0 rest Hcb2 Hout Hlen.
    assert (Hv : VeryfyFromToAddress tx2 = true).
    { unfold VeryfyFromToAddress. rewrite Hcb2, Hout. by rewrite fromEqualsTo_false. }
    rewrite Hv. by destruct ok1, ok2.
  - intros p. destruct (VerifyTransaction bc tx) as [[ok tx1]|q]; cbn [mbind outcome_bind].
    + destruct (IsCoinbase tx1) eqn:Hcb; cbn [negb mbind outcome_bind].
      * split; [discriminate|]. intros [H|(ok' & tx' & H & Hcb' & _)]; [discriminate|].
        inversion H; subst. congruence.
      * destruct (IsUTXOAmountValid bc tx1) as [[ok2 tx2]|q] eqn:Ham;
          cbn [mbind outcome_bind].
        -- split; [discriminate|]. intros [H|(ok' & tx' & H & _ & Hp)]; [discriminate|].
           inversion H; subst. congruence.
        -- split.
           ++ intros H. inversion H; subst. right. by exists ok, tx1.
           ++ intros [H|(ok' & tx' & H & _ & Hp)]; [discriminate|].
              inversion H; subst. congruence.
    + split; [intros H; inversion H; by left|].
      intros [H|(ok' & tx' & H & _)]; [by inversion H|discriminate].
Qed.

End TxChecks.

(** With the stand-in checks, the coinbase [Ex.prevTx] and the signed
    spend both pass. *)
Example VerifyTx_small :
  VerifyTx (A := refAdmission) Ex.prevTx Ex.utxo = Returns true
  /\ VerifyTx (A := refAdmission) Ex2.signedSpend Ex.utxo = Returns true
  /\ VerifyTx (A := refAdmission) Ex.spend Ex.utxo = Returns false.
Proof. repeat split; vm_compute; reflexivity. Qed.
